(** * BaseShipScenario: the episode state machine of [gym_auv/environment.py]

    A shallow embedding of the class [BaseShipScenario]: its constructor, its
    [reset] and its [step], with the progress tracking that [step] carries out
    inline, the sensor fan and the observation bounds fixed at construction.

    Numbers.  The quantities that [step] and [reset] compute are Python and
    NumPy floats, that is IEEE 754 binary64 values, NaN and the infinities
    included.  They are modelled by Rocq's primitive floats, which are the
    same binary64 values with the same comparisons (every comparison with a
    NaN is false).  The integer literals of the source ([0], [-1], [10000])
    are exactly representable.  The step counters are Python integers and are
    modelled in [Z].  The sensor angles are binary64 values as well; what is
    said of them beyond their number is established by evaluating the fan, for
    every fan of up to 256 sensors.

    Python numbers and NumPy scalars hold the same binary64 values and differ
    in one operation that [step] uses: the division of line 188.  Between two
    plain Python numbers a zero divisor raises [ZeroDivisionError]; with a
    NumPy scalar on either side the IEEE quotient is computed.  Which of the
    two the path hands out is a property of the path class, and is recorded
    with the path among the collaborators.

    Collaborators.  The vessel, the path, [geom.princip] and [np.cos] live
    outside this file of the repository; they are taken as the operations of
    the class [Collaborators].  The three extension points [generate],
    [observe] and [step_reward] raise [NotImplementedError] in the base class
    and are overridden by every concrete scenario; they are the operations of
    the class [Scenario]. *)

From Stdlib Require Import ZArith List Bool Lia String Floats Sorted.
From Stdlib Require Uint63.
Import ListNotations.

(** ** The order of binary64 values *)

(** The comparison of two floats, through their specification: [None] when
    either is a NaN. *)
Definition cmp (x y : float) : option comparison :=
  SFcompare (Prim2SF x) (Prim2SF y).

Definition le_cmp (c : comparison) : bool :=
  match c with Gt => false | _ => true end.

(** The outcome of comparing [x] with [z] from those of [x] with [y] and of
    [y] with [z], when neither is [Gt]. *)
Definition chain (c1 c2 : comparison) : comparison :=
  match c1 with Eq => c2 | _ => c1 end.

(** [x] is a zero, a finite number or an infinity of sign [s]. *)
Definition has_sign (s : bool) (x : spec_float) : Prop :=
  match x with
  | S754_zero s' | S754_infinity s' | S754_finite s' _ _ => s' = s
  | S754_nan => False
  end.

(** ** Python and NumPy primitives *)

(** Python's builtin [max(a, b)] keeps its first argument unless the second
    is strictly greater; [min(a, b)] keeps its first argument unless the
    second is strictly smaller.  With a NaN on either side the comparison is
    false and the first argument is returned. *)
Definition py_max (a b : float) : float := if (a <? b)%float then b else a.

Definition py_min (a b : float) : float := if (b <? a)%float then b else a.

(** [np.isnan(v).any()] *)
Definition np_isnan_any (v : list float) : bool := existsb is_nan v.

(** [np.append(arr, x)] on the progress history.  [reset] leaves the history
    at [None]; NumPy turns [None] into a one-element object array, so the
    first append yields [[None, x]]. *)
Definition np_append (arr : option (list (option float))) (x : float)
  : list (option float) :=
  match arr with
  | None => [None; Some x]
  | Some l => l ++ [Some x]
  end.

(** [l[i] = v] on a Python list: an [IndexError] ([None]) out of range. *)
Definition setitem {A : Type} (l : list A) (i : nat) (v : A) : option (list A) :=
  if (i <? List.length l)%nat then Some (firstn i l ++ v :: skipn (S i) l) else None.

(** The values a scenario stores in the [info] dictionary. *)
Inductive pyval : Type :=
| PyFloat (x : float)
| PyBool (b : bool).

Definition Info : Type := list (string * pyval).

(** [d[k] = v]: an existing key keeps its place, a new one goes last. *)
Fixpoint dict_set (d : Info) (k : string) (v : pyval) : Info :=
  match d with
  | [] => [(k, v)]
  | (k', v') :: d' =>
      if String.eqb k' k then (k', v) :: d' else (k', v') :: dict_set d' k v
  end.

Fixpoint dict_get (d : Info) (k : string) : option pyval :=
  match d with
  | [] => None
  | (k', v') :: d' => if String.eqb k' k then Some v' else dict_get d' k
  end.

(** ** Data model *)

(** A position, north then east. *)
Definition point : Type := (float * float)%type.

(** An action is the two-element vector [[propeller_input, rudder_position]]. *)
Definition action : Type := (float * float)%type.

(** The keys of [env_config] that this file reads. *)
Record Config : Type := mkConfig {
  n_sectors : nat;
  n_sensors_per_sector : nat;
  t_step_size : float;
  min_la_dist : float;
  max_closest_point_distance : float;
  max_closest_point_heading_error : float;
  max_timestemps : Z
}.

(** [self.past_errors]: four arrays, emptied by [reset] and filled by the
    concrete scenario. *)
Record PastErrors : Type := mkPastErrors {
  err_speed : list float;
  err_cross_track : list float;
  err_heading : list float;
  err_la_heading : list float
}.

(** The exceptions [step] and [reset] can raise.  The assertion carries the
    observation vector that its message prints. *)
Inductive exn : Type :=
| AssertionError (obs : list float)
| AttributeError
| ValueError
| ZeroDivisionError.

Inductive outcome (A : Type) : Type :=
| Return (a : A)
| Raise (x : exn).

Arguments Return {A} a.
Arguments Raise {A} x.

(** The collaborators of the environment: vessel, path, angle wrapping,
    cosine and the seeding utility. *)
Class Collaborators : Type := {
  Vessel : Type;
  Path : Type;
  Obstacle : Type;
  RandomState : Type;
  PathSamples : Type;
  Track : Type;
  (** [vessel.step(action)], which updates the vessel in place *)
  vessel_step : Vessel -> action -> Vessel;
  position : Vessel -> point;
  course : Vessel -> float;
  speed : Vessel -> float;
  path_taken : Vessel -> Track;
  (** [path.get_closest_point_distance(position)]: distance, point, arclength *)
  get_closest_point_distance : Path -> point -> float * point * float;
  get_direction : Path -> float -> float;
  (** [path.length] *)
  path_length : Path -> float;
  (** whether [path.length] is a NumPy scalar ([np.float64]) rather than a
      plain Python float *)
  length_is_numpy : Path -> bool;
  (** whether the arclength that [get_closest_point_distance] returns is a
      NumPy scalar *)
  arclength_is_numpy : Path -> bool;
  s_max : Path -> float;
  (** [path(np.linspace(a, b, n))] *)
  path_linspace : Path -> float -> float -> nat -> PathSamples;
  (** [geom.princip] *)
  princip : float -> float;
  (** [np.cos] *)
  np_cos : float -> float;
  (** [seeding.np_random(None)] *)
  seeding_np_random : RandomState
}.

Section Environment.

Context {C : Collaborators}.

(** The attributes that the base class only clears and that the concrete
    scenario maintains from its extension points. *)
Record Scene : Type := mkScene {
  obstacles : list Obstacle;
  nearby_obstacles : list Obstacle;
  look_ahead_point : option point;
  look_ahead_arclength : option float;
  past_errors : PastErrors;
  np_random : option RandomState
}.

(** The attributes of the environment object that [step], [reset] and [plot]
    read or write.  [None] is Python's [None].  The per-sensor attributes that
    [__init__] declares at lines 88 to 93 are not among them: no method of
    this file reads or writes them after construction, and the record leaves
    them out. *)
Record Env : Type := mkEnv {
  config : Config;
  vessel : option Vessel;
  path : option Path;
  scene : Scene;
  cumulative_reward : float;
  past_rewards : list float;
  max_path_prog : float;
  target_arclength : float;
  path_prog : option (list (option float));
  past_actions : list action;
  past_obs : option (list (list float));
  t_step : Z;
  total_t_steps : Z;
  episode : Z;
  memory : option (PathSamples * Track)
}.

(** The extension points.  Each reads the whole object; [generate] creates the
    vessel and the path, and all three may rewrite the scene attributes. *)
Class Scenario : Type := {
  generate : Env -> Vessel * Path * Scene;
  observe : Env -> list float * Scene;
  step_reward : Env -> (bool * float * Info) * Scene
}.

Context {Sn : Scenario}.

(** *** Attribute assignments *)

Definition set_past_actions (x : list action) (e : Env) : Env :=
  mkEnv (config e) (vessel e) (path e) (scene e) (cumulative_reward e)
    (past_rewards e) (max_path_prog e) (target_arclength e) (path_prog e)
    x (past_obs e) (t_step e) (total_t_steps e) (episode e) (memory e).

Definition set_vessel (x : option Vessel) (e : Env) : Env :=
  mkEnv (config e) x (path e) (scene e) (cumulative_reward e)
    (past_rewards e) (max_path_prog e) (target_arclength e) (path_prog e)
    (past_actions e) (past_obs e) (t_step e) (total_t_steps e) (episode e)
    (memory e).

Definition set_path (x : option Path) (e : Env) : Env :=
  mkEnv (config e) (vessel e) x (scene e) (cumulative_reward e)
    (past_rewards e) (max_path_prog e) (target_arclength e) (path_prog e)
    (past_actions e) (past_obs e) (t_step e) (total_t_steps e) (episode e)
    (memory e).

Definition set_scene (x : Scene) (e : Env) : Env :=
  mkEnv (config e) (vessel e) (path e) x (cumulative_reward e)
    (past_rewards e) (max_path_prog e) (target_arclength e) (path_prog e)
    (past_actions e) (past_obs e) (t_step e) (total_t_steps e) (episode e)
    (memory e).

Definition set_max_path_prog (x : float) (e : Env) : Env :=
  mkEnv (config e) (vessel e) (path e) (scene e) (cumulative_reward e)
    (past_rewards e) x (target_arclength e) (path_prog e)
    (past_actions e) (past_obs e) (t_step e) (total_t_steps e) (episode e)
    (memory e).

Definition set_target_arclength (x : float) (e : Env) : Env :=
  mkEnv (config e) (vessel e) (path e) (scene e) (cumulative_reward e)
    (past_rewards e) (max_path_prog e) x (path_prog e)
    (past_actions e) (past_obs e) (t_step e) (total_t_steps e) (episode e)
    (memory e).

Definition set_path_prog (x : option (list (option float))) (e : Env) : Env :=
  mkEnv (config e) (vessel e) (path e) (scene e) (cumulative_reward e)
    (past_rewards e) (max_path_prog e) (target_arclength e) x
    (past_actions e) (past_obs e) (t_step e) (total_t_steps e) (episode e)
    (memory e).

Definition set_past_obs (x : option (list (list float))) (e : Env) : Env :=
  mkEnv (config e) (vessel e) (path e) (scene e) (cumulative_reward e)
    (past_rewards e) (max_path_prog e) (target_arclength e) (path_prog e)
    (past_actions e) x (t_step e) (total_t_steps e) (episode e) (memory e).

Definition set_past_rewards (x : list float) (e : Env) : Env :=
  mkEnv (config e) (vessel e) (path e) (scene e) (cumulative_reward e)
    x (max_path_prog e) (target_arclength e) (path_prog e)
    (past_actions e) (past_obs e) (t_step e) (total_t_steps e) (episode e)
    (memory e).

Definition set_cumulative_reward (x : float) (e : Env) : Env :=
  mkEnv (config e) (vessel e) (path e) (scene e) x
    (past_rewards e) (max_path_prog e) (target_arclength e) (path_prog e)
    (past_actions e) (past_obs e) (t_step e) (total_t_steps e) (episode e)
    (memory e).

Definition set_t_step (x : Z) (e : Env) : Env :=
  mkEnv (config e) (vessel e) (path e) (scene e) (cumulative_reward e)
    (past_rewards e) (max_path_prog e) (target_arclength e) (path_prog e)
    (past_actions e) (past_obs e) x (total_t_steps e) (episode e) (memory e).

Definition set_total_t_steps (x : Z) (e : Env) : Env :=
  mkEnv (config e) (vessel e) (path e) (scene e) (cumulative_reward e)
    (past_rewards e) (max_path_prog e) (target_arclength e) (path_prog e)
    (past_actions e) (past_obs e) (t_step e) x (episode e) (memory e).

Definition set_episode (x : Z) (e : Env) : Env :=
  mkEnv (config e) (vessel e) (path e) (scene e) (cumulative_reward e)
    (past_rewards e) (max_path_prog e) (target_arclength e) (path_prog e)
    (past_actions e) (past_obs e) (t_step e) (total_t_steps e) x (memory e).

(** *** Progress tracking (the body of [step], lines 161 to 182) *)

(** The progress value [prog]: the closest-point arclength when the vessel is
    close to the path or nearly aligned with it at the closest point, and the
    forward projection of the best progress so far otherwise. *)
Definition progress (cfg : Config) (p : Path) (v : Vessel) (mpp : float) : float :=
  let '(closest_point_distance, _, closest_arclength) :=
    get_closest_point_distance p (position v) in
  let closest_point_heading_error :=
    princip (get_direction p closest_arclength - course v)%float in
  let course_path_angle := princip (get_direction p mpp - course v)%float in
  let dprog := (np_cos course_path_angle * speed v * t_step_size cfg)%float in
  if (closest_point_distance <? max_closest_point_distance cfg)%float
     || (PrimFloat.abs closest_point_heading_error
           <? max_closest_point_heading_error cfg)%float
  then closest_arclength
  else py_min (py_max 0%float (mpp + dprog)%float) (path_length p).

(** [if prog > self.max_path_prog: self.max_path_prog = prog] *)
Definition update_max_path_prog (mpp prog : float) : float :=
  if (mpp <? prog)%float then prog else mpp.

(** The look-ahead target, lines 178 to 182. *)
Definition update_target_arclength
  (cfg : Config) (p : Path) (la : option float) (mpp : float) : float :=
  let target :=
    match la with
    | None => (mpp + min_la_dist cfg)%float
    | Some look_ahead => py_max look_ahead (mpp + min_la_dist cfg)%float
    end in
  py_min target (path_length p).

(** *** [step] *)

(** Lines 158 to 182: the action is recorded, the vessel advanced, and the
    progress, the best progress and the look-ahead target updated.  The value
    returned is the local variable [prog], which line 188 reads again. *)
Definition advance (a : action) (e : Env) : outcome float * Env :=
  let e := set_past_actions (past_actions e ++ [a]) e in
  match vessel e with
  | None => (Raise AttributeError, e)
  | Some v0 =>
    let v := vessel_step v0 a in
    let e := set_vessel (Some v) e in
    match path e with
    | None => (Raise AttributeError, e)
    | Some p =>
      let prog := progress (config e) p v (max_path_prog e) in
      let e := set_max_path_prog (update_max_path_prog (max_path_prog e) prog) e in
      let e := set_path_prog (Some (np_append (path_prog e) prog)) e in
      let e :=
        set_target_arclength
          (update_target_arclength (config e) p
             (look_ahead_arclength (scene e)) (max_path_prog e)) e in
      (Return prog, e)
    end
  end.

(** Whether the object bound to [prog] (lines 169 and 171) is a NumPy scalar.
    In the first branch it is the arclength that the path returned.  In the
    second, [np.cos] returns a NumPy scalar, so [dprog] and the projection
    [self.max_path_prog + dprog] are NumPy scalars; [max] hands back either
    the projection or the integer literal [0], and [min] either that or
    [self.path.length] itself. *)
Definition progress_is_numpy (cfg : Config) (p : Path) (v : Vessel) (mpp : float)
  : bool :=
  let '(closest_point_distance, _, closest_arclength) :=
    get_closest_point_distance p (position v) in
  let closest_point_heading_error :=
    princip (get_direction p closest_arclength - course v)%float in
  let course_path_angle := princip (get_direction p mpp - course v)%float in
  let dprog := (np_cos course_path_angle * speed v * t_step_size cfg)%float in
  if (closest_point_distance <? max_closest_point_distance cfg)%float
     || (PrimFloat.abs closest_point_heading_error
           <? max_closest_point_heading_error cfg)%float
  then arclength_is_numpy p
  else
    if (path_length p <? py_max 0%float (mpp + dprog)%float)%float
    then length_is_numpy p
    else (0 <? mpp + dprog)%float.

(** The same for the call [step a e]: the progress is computed from the
    advanced vessel and the best progress before the step. *)
Definition prog_is_numpy (a : action) (e : Env) : bool :=
  match vessel e, path e with
  | Some v0, Some p =>
      progress_is_numpy (config e) p (vessel_step v0 a) (max_path_prog e)
  | _, _ => false
  end.

(** The IEEE quotient, which NumPy computes: a zero divisor yields NaN (for
    [0/0] and for a NaN dividend) or an infinity, with a warning. *)
Definition np_divide (x y : float) : float := (x / y)%float.

(** Python's [x / y], with [x_np] and [y_np] telling whether [x] and [y] are
    NumPy scalars.  Between two plain Python numbers a zero divisor raises
    [ZeroDivisionError], whatever the dividend; with a NumPy scalar on either
    side the division is NumPy's. *)
Definition true_divide (x_np y_np : bool) (x y : float) : outcome float :=
  if (y =? 0)%float && negb (x_np || y_np) then Raise ZeroDivisionError
  else Return (np_divide x y).

(** Lines 184 to 197, with [prog_np] telling whether [prog] is a NumPy
    scalar.  When a failed [reset] has left [past_obs] at [None],
    [np.vstack([None, obs])] fails on the shapes (a [ValueError]).  The
    division of line 188 comes after the observation has been recorded and
    the reward shaper has run, and before the rewards and the counters are
    updated. *)
Definition conclude (prog : float) (prog_np : bool) (e : Env)
  : outcome (list float * float * bool * Info) * Env :=
  let '(obs, sc) := observe e in
  let e := set_scene sc e in
  if np_isnan_any obs then (Raise (AssertionError obs), e)
  else
    match past_obs e with
    | None => (Raise ValueError, e)
    | Some rows =>
      let e := set_past_obs (Some (rows ++ [obs])) e in
      let '(done, reward, info, sc) := step_reward e in
      let e := set_scene sc e in
      match path e with
      | None => (Raise AttributeError, e)
      | Some p =>
        match true_divide prog_np (length_is_numpy p) prog (path_length p) with
        | Raise x => (Raise x, e)
        | Return fraction =>
          let info := dict_set info "progress" (PyFloat fraction) in
          let e := set_past_rewards (past_rewards e ++ [reward]) e in
          let e := set_cumulative_reward (cumulative_reward e + reward)%float e in
          let e := set_t_step (t_step e + 1)%Z e in
          let e := set_total_t_steps (total_t_steps e + 1)%Z e in
          let done :=
            if (max_timestemps (config e) <? t_step e)%Z then true else done in
          (Return (obs, reward, done, info), e)
        end
      end
    end.

Definition step (a : action) (e : Env)
  : outcome (list float * float * bool * Info) * Env :=
  match advance a e with
  | (Raise x, e1) => (Raise x, e1)
  | (Return prog, e1) => conclude prog (prog_is_numpy a e) e1
  end.

(** *** [reset] *)

(** Lines 209 to 213: after an episode that took a step, the sampled path and
    the track of the vessel are stored for plotting. *)
Definition snapshot (e : Env) : outcome (option (PathSamples * Track)) :=
  if (0 <? t_step e)%Z then
    match path e, vessel e with
    | Some p, Some v =>
        Return (Some (path_linspace p 0%float (s_max p) 1000, path_taken v))
    | _, _ => Raise AttributeError
    end
  else Return (memory e).

Definition empty_errors : PastErrors := mkPastErrors [] [] [] [].

(** Lines 215 to 237: every episode attribute is cleared; the random state is
    created only when there is none yet. *)
Definition cleared (mem : option (PathSamples * Track)) (e : Env) : Env :=
  {| config := config e;
     vessel := None;
     path := None;
     scene :=
       {| obstacles := [];
          nearby_obstacles := [];
          look_ahead_point := None;
          look_ahead_arclength := None;
          past_errors := empty_errors;
          np_random :=
            match np_random (scene e) with
            | None => Some seeding_np_random
            | Some r => Some r
            end |};
     cumulative_reward := 0%float;
     past_rewards := [];
     max_path_prog := 0%float;
     target_arclength := 0%float;
     path_prog := None;
     past_actions := [(0%float, 0%float)];
     past_obs := None;
     t_step := 0%Z;
     total_t_steps := total_t_steps e;
     episode := episode e;
     memory := mem |}.

(** Lines 209 to 239: snapshot, clearing, and the scenario's [generate]. *)
Definition regenerate (e : Env) : outcome unit * Env :=
  match snapshot e with
  | Raise x => (Raise x, e)
  | Return mem =>
    let e := cleared mem e in
    let '(v, p, sc) := generate e in
    (Return tt, set_scene sc (set_path (Some p) (set_vessel (Some v) e)))
  end.

Definition reset (e : Env) : outcome (list float) * Env :=
  match regenerate e with
  | (Raise x, e) => (Raise x, e)
  | (Return _, e) =>
    let '(obs, sc) := observe e in
    let e := set_scene sc e in
    if np_isnan_any obs then (Raise (AssertionError obs), e)
    else
      let e := set_past_obs (Some [obs]) e in
      let e := set_episode (episode e + 1)%Z e in
      (Return obs, e)
  end.

(** *** The constructor *)

(** The object as [__init__] leaves it just before it calls [reset].  The
    attributes that [__init__] sets to [None] and that [reset] assigns before
    anything reads them are given the value [reset] assigns. *)
Definition blank (cfg : Config) : Env :=
  {| config := cfg;
     vessel := None;
     path := None;
     scene :=
       {| obstacles := [];
          nearby_obstacles := [];
          look_ahead_point := None;
          look_ahead_arclength := None;
          past_errors := empty_errors;
          np_random := None |};
     cumulative_reward := 0%float;
     past_rewards := [];
     max_path_prog := 0%float;
     target_arclength := 0%float;
     path_prog := None;
     past_actions := [];
     past_obs := None;
     t_step := 0%Z;
     total_t_steps := 0%Z;
     episode := 0%Z;
     memory := None |}.

Definition init (cfg : Config) : outcome (list float) * Env := reset (blank cfg).

(** *** Runs *)

(** The object after a sequence of calls to [step], whatever each returned. *)
Fixpoint steps (acts : list action) (e : Env) : Env :=
  match acts with
  | [] => e
  | a :: acts' => steps acts' (snd (step a e))
  end.

(** The objects a caller can hold: built by the constructor, then driven by
    [reset] and [step]. *)
Inductive reachable : Env -> Prop :=
| reach_init (cfg : Config) : reachable (snd (init cfg))
| reach_reset (e : Env) : reachable e -> reachable (snd (reset e))
| reach_step (a : action) (e : Env) : reachable e -> reachable (snd (step a e)).

(** The current episode of an object: it was started by a [reset] that got
    past the snapshot, and has been stepped since. *)
Inductive in_episode : Env -> Prop :=
| episode_start (e : Env) (mem : option (PathSamples * Track)) :
    snapshot e = Return mem -> in_episode (snd (reset e))
| episode_step (a : action) (e : Env) : in_episode e -> in_episode (snd (step a e)).

(** Whether a call returned normally. *)
Definition returned {A : Type} (o : outcome A) : bool :=
  match o with Return _ => true | Raise _ => false end.

(** Every step of the run returned normally. *)
Fixpoint all_returned (acts : list action) (e : Env) : bool :=
  match acts with
  | [] => true
  | a :: acts' => returned (fst (step a e)) && all_returned acts' (snd (step a e))
  end.

(** The invariant of an episode: the vessel and the path exist, and the best
    progress is a number that is not negative. *)
Definition episode_inv (e : Env) : Prop :=
  (exists v, vessel e = Some v) /\ (exists p, path e = Some p) /\
  (0 <=? max_path_prog e)%float = true.

(** *** The properties of the look-ahead target and of clamping *)

(** [r] is [x] clamped to the interval from [lo] to [hi]. *)
Definition clamped (x lo hi r : float) : Prop :=
  (lo <=? r)%float = true /\ (r <=? hi)%float = true /\
  ((lo <=? x)%float = true -> (x <=? hi)%float = true -> (r =? x)%float = true) /\
  ((x <? lo)%float = true -> (r =? lo)%float = true) /\
  ((hi <? x)%float = true -> (r =? hi)%float = true).

(** The look-ahead target lies on the path, at least [min_la_dist] ahead of
    the best progress, and at the end of the path when that is beyond it. *)
Definition target_ahead (e : Env) (p : Path) : Prop :=
  let sum := (max_path_prog e + min_la_dist (config e))%float in
  (0 <=? target_arclength e)%float = true /\
  (target_arclength e <=? path_length p)%float = true /\
  (if (path_length p <? sum)%float
   then target_arclength e = path_length p
   else (sum <=? target_arclength e)%float = true).

(** The call [step a e] gets to the division of line 188, and the path
    length it divides by is zero: the progress is tracked, the observation
    passes its check and is recorded. *)
Definition divides_by_zero (a : action) (e : Env) : Prop :=
  exists prog e1 rows p,
    advance a e = (Return prog, e1) /\
    np_isnan_any (fst (observe e1)) = false /\ past_obs e1 = Some rows /\
    path e1 = Some p /\ (path_length p =? 0)%float = true.

(** The observation that the call [step a e] returns, if it returns one,
    holds finite values only. *)
Definition returns_finite (a : action) (e : Env) : Prop :=
  match fst (step a e) with
  | Return (obs, _, _, _) => forallb PrimFloat.is_finite obs = true
  | Raise _ => True
  end.

(** *** Sums, histories and counts *)


(** The progress values of a history, without the [None] that the first
    [np.append] puts in front. *)
Definition recorded (pp : option (list (option float))) : list float :=
  match pp with
  | None => []
  | Some l => flat_map (fun o => match o with Some x => [x] | None => [] end) l
  end.

(** The number of steps of a run that returned. *)
Fixpoint count_returned (acts : list action) (e : Env) : nat :=
  match acts with
  | [] => 0
  | a :: acts' =>
      (if returned (fst (step a e)) then 1 else 0)
      + count_returned acts' (snd (step a e))
  end.

(** Whether a call to [step] got past line 186, where the observation is
    recorded: it returned, or it stopped at the division of line 188. *)
Definition observed {A : Type} (o : outcome A) : bool :=
  match o with
  | Return _ | Raise ZeroDivisionError => true
  | Raise _ => false
  end.

(** The number of steps of a run that recorded their observation. *)
Fixpoint count_observed (acts : list action) (e : Env) : nat :=
  match acts with
  | [] => 0
  | a :: acts' =>
      (if observed (fst (step a e)) then 1 else 0)
      + count_observed acts' (snd (step a e))
  end.

(** What [plot] reads, lines 279 and 280: the entries ['path'] and
    ['path_taken'] of [self.memory].  On the empty list that [__init__]
    leaves there, the subscript fails ([None]). *)
Definition plot_inputs (e : Env) : option (PathSamples * Track) := memory e.

End Environment.

Arguments Scene {C}.
Arguments Env {C}.
Arguments Scenario {C}.

(** ** The sensor fan (line 86) *)

(** [self.nsensors] *)
Definition nsensors (cfg : Config) : nat :=
  (n_sensors_per_sector cfg * n_sectors cfg)%nat.

(** [np.pi]: the binary64 value nearest to pi. *)
Definition np_pi : float := 0x1.921fb54442d18p+1%float.

(** The binary64 value of a Python integer; exact for the integers met here.
    [(i + 1)/(n + 1)] on Python integers is the correctly rounded quotient,
    which for such integers is the binary64 quotient of their values. *)
Definition float_of_nat (n : nat) : float :=
  PrimFloat.of_uint63 (Uint63.of_Z (Z.of_nat n)).

(** The angle of sensor [i] in a fan of [n], as line 86 computes it:
    [-np.pi/2 + (i + 1)/(n + 1)*np.pi]. *)
Definition sensor_angle (n i : nat) : float :=
  (- np_pi / 2 + float_of_nat (i + 1) / float_of_nat (n + 1) * np_pi)%float.

(** [self.sensor_angles] *)
Definition sensor_angles (cfg : Config) : list float :=
  map (sensor_angle (nsensors cfg)) (seq 0 (nsensors cfg)).

(** An angle strictly between [-np.pi/2] and [np.pi/2].  These two bounds lie
    inside the arc from [-pi/2] to [pi/2], since [np.pi] is below pi. *)
Definition in_forward_arc (x : float) : bool :=
  ((- np_pi / 2 <? x) && (x <? np_pi / 2))%float.

(** The nominal distance between neighbouring sensors of a fan of [n],
    [np.pi/(n + 1)]. *)
Definition sensor_spacing (n : nat) : float := (np_pi / float_of_nat (n + 1))%float.

(** Equality up to the rounding of the few operations of line 86: a
    difference of at most [2^-50], four units in the last place of an angle
    near [pi/2]. *)
Definition fan_tolerance : float := 0x1p-50%float.

Definition near (x y : float) : bool :=
  (PrimFloat.abs (x - y) <=? fan_tolerance)%float.

(** What is checked of a fan of [n] sensors: every angle is in the arc, each
    is above the one before it, neighbours are one spacing apart, the fan is
    symmetric about the heading and leaves one spacing free at either end of
    the arc; the last three up to rounding. *)
Definition fan_in_arc (n : nat) : bool :=
  forallb (fun i => in_forward_arc (sensor_angle n i)) (seq 0 n).

Definition fan_increasing (n : nat) : bool :=
  forallb (fun i => (sensor_angle n i <? sensor_angle n (S i))%float) (seq 0 (n - 1)).

Definition fan_spaced (n : nat) : bool :=
  forallb (fun i => near (sensor_angle n (S i) - sensor_angle n i)%float
                         (sensor_spacing n)) (seq 0 (n - 1)).

Definition fan_symmetric (n : nat) : bool :=
  forallb (fun i => near (sensor_angle n i + sensor_angle n (n - 1 - i))%float 0%float)
          (seq 0 n).

Definition fan_fills_arc (n : nat) : bool :=
  match n with
  | O => true
  | _ =>
      near (sensor_angle n 0 - (- np_pi / 2))%float (sensor_spacing n)
      && near (np_pi / 2 - sensor_angle n (n - 1))%float (sensor_spacing n)
  end.



(** ** The observation and action spaces (lines 120 to 134) *)

(** [self.nstates] *)
Definition nstates : nat := 7.

Definition nobservations (cfg : Config) : nat := (nstates + n_sectors cfg * 2)%nat.

(** A [gym.spaces.Box]: the lower and the upper bound of every element. *)
Record Box : Type := mkBox {
  low : list Z;
  high : list Z
}.

Definition action_space : Box := mkBox [0; -1]%Z [1; 1]%Z.

(** [None] stands for the [IndexError] of an assignment out of range. *)
Definition observation_space (cfg : Config) : option Box :=
  let low_obs := repeat (-1)%Z (nobservations cfg) in
  let high_obs := repeat 1%Z (nobservations cfg) in
  match setitem low_obs (nstates - 1) (-10000)%Z with
  | None => None
  | Some low_obs =>
    match setitem high_obs (nstates - 1) 10000%Z with
    | None => None
    | Some high_obs => Some (mkBox low_obs high_obs)
    end
  end.

(** The declared bounds of the element at index [i]. *)
Definition bounds_at (b : Box) (i : nat) : option (Z * Z) :=
  match nth_error (low b) i, nth_error (high b) i with
  | Some l, Some h => Some (l, h)
  | _, _ => None
  end.

(** The declared bounds are [-1, 1] everywhere except at index [k], where
    they are [-10000, 10000]. *)
Definition extended_slot_is (cfg : Config) (k : nat) : Prop :=
  exists b, observation_space cfg = Some b /\
    forall i, (i < nobservations cfg)%nat ->
      bounds_at b i =
      Some (if (i =? k)%nat then (-10000, 10000)%Z else (-1, 1)%Z).

(** ** Termination *)

(** Two scenarios that differ in their reward shaper only. *)
Definition same_world {C : Collaborators} (S1 S2 : Scenario) : Prop :=
  @generate C S1 = @generate C S2 /\ @observe C S1 = @observe C S2.

(** Modelled from the spec: first match wins, and the step limit comes first.
    On a step whose incremented count exceeds the limit, the limit is the
    match that decides the step, and the conditions that come after it in the
    order, which are the reward shaper's, have no say in what the step
    returns. *)
Definition limit_wins {C : Collaborators} (S1 S2 : Scenario) (a : action) (e : Env)
  : Prop :=
  (max_timestemps (config e) <? t_step e + 1)%Z = true ->
  fst (@step C S1 a e) = fst (@step C S2 a e).

(** ** A small concrete scenario

    A straight path that leaves the origin due north, and a vessel that an
    action moves by [propeller] north and [rudder] east.  It serves to run
    [step] and [reset] on concrete inputs. *)

Record ToyVessel : Type := mkToyVessel {
  toy_position : point;
  toy_course : float;
  toy_speed : float
}.

Definition toy_vessel_step (v : ToyVessel) (a : action) : ToyVessel :=
  {| toy_position :=
       (fst (toy_position v) + fst a, snd (toy_position v) + snd a)%float;
     toy_course := toy_course v;
     toy_speed := fst a |}.

(** The path is given by its length; the closest point to a position is its
    projection on the northward segment. *)
Definition toy_closest (len : float) (pos : point) : float * point * float :=
  let s := py_min (py_max 0%float (fst pos)) len in
  (PrimFloat.abs (snd pos), (s, 0%float), s).

(** The toy collaborators; [numpy] tells whether the path hands out NumPy
    scalars or plain Python floats. *)
Definition toy_world (numpy : bool) : Collaborators := {|
  Vessel := ToyVessel;
  Path := float;
  Obstacle := unit;
  RandomState := unit;
  PathSamples := list point;
  Track := list point;
  vessel_step := toy_vessel_step;
  position := toy_position;
  course := toy_course;
  speed := toy_speed;
  path_taken := fun v => [toy_position v];
  get_closest_point_distance := toy_closest;
  get_direction := fun _ _ => 0%float;
  path_length := fun len => len;
  length_is_numpy := fun _ => numpy;
  arclength_is_numpy := fun _ => numpy;
  s_max := fun len => len;
  path_linspace := fun _ a b _ => [(a, 0%float); (b, 0%float)];
  princip := fun x => x;
  (* the first two terms of the cosine series: exact at 0, where the toy
     vessel always heads *)
  np_cos := fun x => (1 - x * x / 2)%float;
  seeding_np_random := tt
|}.

(** The toy world with plain Python floats, and the one with NumPy scalars. *)
#[local] Instance ToyWorld : Collaborators := toy_world false.

Definition NumpyToyWorld : Collaborators := toy_world true.

(** The observation of the toy scenario: speed, course, best progress and
    look-ahead target. *)
Definition toy_observe (e : @Env ToyWorld) : list float :=
  match vessel e with
  | Some v => [toy_speed v; toy_course v; max_path_prog e; target_arclength e]
  | None => []
  end.

(** A scenario on a path of length [len], with the vessel starting at the
    origin at rest, and the reward shaper [shaper]. *)
Definition toy_scenario (len : float) (shaper : @Env ToyWorld -> bool * float * Info)
  : @Scenario ToyWorld :=
  {| generate := fun e => (mkToyVessel (0, 0)%float 0%float 0%float, len, scene e);
     observe := fun e => (toy_observe e, scene e);
     step_reward := fun e => (shaper e, scene e) |}.

(** A shaper that never ends the episode and gives no reward. *)
Definition quiet_shaper (e : @Env ToyWorld) : bool * float * Info :=
  (false, 0%float, []).

(** A shaper that reports a collision: the episode ends with a penalty. *)
Definition collision_shaper (e : @Env ToyWorld) : bool * float * Info :=
  (true, (-1000)%float, [("collision"%string, PyBool true)]).

Definition toy_config (la : float) (max_t : Z) : Config :=
  {| n_sectors := 2;
     n_sensors_per_sector := 3;
     t_step_size := 1%float;
     min_la_dist := la;
     max_closest_point_distance := 10%float;
     max_closest_point_heading_error := 1%float;
     max_timestemps := max_t |}.

(** The toy scenario on a path of length 100 with the quiet shaper, and the
    object its constructor builds with a look-ahead distance of 1 and a limit
    of 5 steps. *)
Definition toy_quiet : @Scenario ToyWorld := toy_scenario 100%float quiet_shaper.

Definition toy_start : @Env ToyWorld :=
  snd (@init ToyWorld toy_quiet (toy_config 1%float 5%Z)).

(** The same scenario on a path of length zero. *)
Definition toy_flat : @Scenario ToyWorld := toy_scenario 0%float quiet_shaper.

Definition toy_flat_start : @Env ToyWorld :=
  snd (@init ToyWorld toy_flat (toy_config 1%float 5%Z)).

(** The scenario whose shaper reports a collision, with a limit of 0 steps. *)
Definition toy_collide : @Scenario ToyWorld := toy_scenario 100%float collision_shaper.

Definition toy_collide_start : @Env ToyWorld :=
  snd (@init ToyWorld toy_collide (toy_config 1%float 0%Z)).

(** A configuration whose two thresholds are zero, so that neither criterion
    of the switch is ever met and the progress is always projected forward. *)
Definition toy_strict_config : Config :=
  {| n_sectors := 2;
     n_sensors_per_sector := 3;
     t_step_size := 1%float;
     min_la_dist := 1%float;
     max_closest_point_distance := 0%float;
     max_closest_point_heading_error := 0%float;
     max_timestemps := 5%Z |}.

Definition toy_strict_start : @Env ToyWorld :=
  snd (@init ToyWorld toy_quiet toy_strict_config).

Definition toy_flat_strict_start : @Env ToyWorld :=
  snd (@init ToyWorld toy_flat toy_strict_config).

(** A configuration with a negative look-ahead distance. *)
Definition toy_backward_start : @Env ToyWorld :=
  snd (@init ToyWorld toy_quiet (toy_config (-5)%float 5%Z)).

(** The quiet scenario with a limit of 0 steps, and with a limit of 1 step
    after the first step of the episode. *)
Definition toy_limit0_start : @Env ToyWorld :=
  snd (@init ToyWorld toy_quiet (toy_config 1%float 0%Z)).

Definition toy_limit1_start : @Env ToyWorld :=
  snd (@init ToyWorld toy_quiet (toy_config 1%float 1%Z)).

Definition toy_limit1_reached : @Env ToyWorld :=
  snd (@step ToyWorld toy_quiet (1, 0)%float toy_limit1_start).

(** The path of length zero in the world of NumPy scalars. *)
Definition numpy_toy_flat : @Scenario NumpyToyWorld :=
  @Build_Scenario NumpyToyWorld
    (fun e : @Env NumpyToyWorld =>
       (mkToyVessel (0, 0)%float 0%float 0%float, 0%float, @scene NumpyToyWorld e))
    (fun e : @Env NumpyToyWorld =>
       (match @vessel NumpyToyWorld e with
        | Some v =>
            [toy_speed v; toy_course v; @max_path_prog NumpyToyWorld e;
             @target_arclength NumpyToyWorld e]
        | None => []
        end, @scene NumpyToyWorld e))
    (fun e : @Env NumpyToyWorld =>
       ((false, 0%float, []), @scene NumpyToyWorld e)).

Definition numpy_toy_flat_start : @Env NumpyToyWorld :=
  snd (@init NumpyToyWorld numpy_toy_flat (toy_config 1%float 5%Z)).

(** A path whose length is a NaN, with the progress always projected
    forward. *)
Definition toy_nan_length : @Scenario ToyWorld := toy_scenario nan quiet_shaper.

Definition toy_nan_length_start : @Env ToyWorld :=
  snd (@init ToyWorld toy_nan_length toy_strict_config).

(** A scenario that observes the east coordinate of the vessel as well. *)
Definition toy_east : @Scenario ToyWorld :=
  {| generate := fun e => (mkToyVessel (0, 0)%float 0%float 0%float, 100%float, scene e);
     observe := fun e =>
       (match vessel e with
        | Some v => snd (toy_position v) :: toy_observe e
        | None => []
        end, scene e);
     step_reward := fun e => (quiet_shaper e, scene e) |}.

Definition toy_east_start : @Env ToyWorld :=
  snd (@init ToyWorld toy_east (toy_config 1%float 5%Z)).


(** Two steps of the scenario whose shaper gives the reward -1000. *)
Definition toy_collide_run : @Env ToyWorld :=
  @steps ToyWorld toy_collide [(1, 0); (2, 0)]%float toy_collide_start.

(** The toy episode after a step that returned, and the second episode, which
    a [reset] starts from there. *)
Definition toy_stepped : @Env ToyWorld :=
  snd (@step ToyWorld toy_quiet (3, 0)%float toy_start).

Definition toy_second_episode : @Env ToyWorld :=
  snd (@reset ToyWorld toy_quiet toy_stepped).


(** * Facts *)

(** ** The order of binary64 values *)

Section FloatOrder.

Local Open Scope float_scope.

Lemma ltb_cmp x y : (x <? y) = match cmp x y with Some Lt => true | _ => false end.
Proof. apply ltb_spec. Qed.

Lemma leb_cmp x y :
  (x <=? y) = match cmp x y with Some (Lt | Eq) => true | _ => false end.
Proof. apply leb_spec. Qed.

Lemma eqb_cmp x y : (x =? y) = match cmp x y with Some Eq => true | _ => false end.
Proof. apply eqb_spec. Qed.

Lemma SFcompare_opp x y : SFcompare y x = option_map CompOpp (SFcompare x y).
Proof.
  destruct x as [sx|sx| |sx mx ex], y as [sy|sy| |sy my ey]; simpl; try reflexivity;
    try (destruct sx; reflexivity); try (destruct sy; reflexivity);
    try (destruct sx, sy; reflexivity).
  destruct sx, sy; simpl; try reflexivity;
    rewrite (Z.compare_antisym ey ex); destruct (ey ?= ex)%Z; simpl; try reflexivity;
    fold (Pos.compare mx my); fold (Pos.compare my mx);
    rewrite (Pos.compare_antisym my mx); destruct (my ?= mx)%positive; reflexivity.
Qed.

Lemma SFcompare_diag x : x <> S754_nan -> SFcompare x x = Some Eq.
Proof.
  destruct x as [s|s| |s m e]; simpl; intros H; try congruence.
  - destruct s; reflexivity.
  - destruct s; rewrite Z.compare_refl; fold (Pos.compare m m);
      rewrite Pos.compare_refl; reflexivity.
Qed.


Lemma SFcompare_chain x y z c1 c2 :
  SFcompare x y = Some c1 -> SFcompare y z = Some c2 ->
  le_cmp c1 = true -> le_cmp c2 = true ->
  SFcompare x z = Some (chain c1 c2).
Proof.
  intros H1 H2 L1 L2.
  destruct x as [sx|sx| |sx mx ex], y as [sy|sy| |sy my ey], z as [sz|sz| |sz mz ez];
    simpl in *; try discriminate;
    repeat match goal with s : bool |- _ => destruct s end;
    simpl in *; injection H1 as <-; injection H2 as <-; f_equal;
    try (simpl in *; congruence);
    change (Pos.compare_cont Eq) with Pos.compare in *;
    repeat match goal with
           | H : context [(?a ?= ?b)%Z] |- _ => destruct (Z.compare_spec a b)
           | |- context [(?a ?= ?b)%Z] => destruct (Z.compare_spec a b)
           end; simpl in *; try lia; try congruence;
    repeat match goal with
           | H : context [(?a ?= ?b)%positive] |- _ => destruct (Pos.compare_spec a b)
           | |- context [(?a ?= ?b)%positive] => destruct (Pos.compare_spec a b)
           end; simpl in *; try lia; try congruence.
Qed.

Lemma cmp_opp x y : cmp y x = option_map CompOpp (cmp x y).
Proof. apply SFcompare_opp. Qed.

Lemma is_nan_cmp x : is_nan x = match cmp x x with Some _ => false | None => true end.
Proof.
  unfold is_nan. rewrite eqb_cmp. unfold cmp.
  destruct (Prim2SF x) as [s|s| |s m e];
    try (rewrite SFcompare_diag by discriminate); reflexivity.
Qed.

Lemma cmp_some_l x y c : cmp x y = Some c -> is_nan x = false.
Proof.
  rewrite is_nan_cmp. unfold cmp.
  destruct (Prim2SF x) as [s|s| |s m e]; intros H;
    [ | | simpl in H; discriminate | ];
    rewrite SFcompare_diag by discriminate; reflexivity.
Qed.

Lemma cmp_some_r x y c : cmp x y = Some c -> is_nan y = false.
Proof.
  intros H. apply (cmp_some_l y x (CompOpp c)). rewrite cmp_opp, H. reflexivity.
Qed.

Lemma cmp_total x y : is_nan x = false -> is_nan y = false -> exists c, cmp x y = Some c.
Proof.
  rewrite !is_nan_cmp. unfold cmp.
  destruct (Prim2SF x) as [sx|sx| |sx mx ex], (Prim2SF y) as [sy|sy| |sy my ey];
    simpl; try discriminate; eauto.
Qed.

Lemma cmp_diag x : is_nan x = false -> cmp x x = Some Eq.
Proof.
  rewrite is_nan_cmp. unfold cmp. intros H. apply SFcompare_diag.
  intros E. rewrite E in H. discriminate.
Qed.

(** The order facts used by the episode proofs. *)
Lemma ltb_leb x y : (x <? y) = true -> (x <=? y) = true.
Proof. rewrite ltb_cmp, leb_cmp. destruct (cmp x y) as [[ | | ]|]; congruence. Qed.

Lemma leb_refl x : is_nan x = false -> (x <=? x) = true.
Proof. intros H. rewrite leb_cmp, (cmp_diag x H). reflexivity. Qed.

Lemma leb_not_nan_l x y : (x <=? y) = true -> is_nan x = false.
Proof.
  rewrite leb_cmp. destruct (cmp x y) as [c|] eqn:E; try discriminate.
  intros _. exact (cmp_some_l _ _ _ E).
Qed.

Lemma leb_not_nan_r x y : (x <=? y) = true -> is_nan y = false.
Proof.
  rewrite leb_cmp. destruct (cmp x y) as [c|] eqn:E; try discriminate.
  intros _. exact (cmp_some_r _ _ _ E).
Qed.

Lemma ltb_not_nan_l x y : (x <? y) = true -> is_nan x = false.
Proof. intros H. exact (leb_not_nan_l _ _ (ltb_leb _ _ H)). Qed.

Lemma ltb_not_nan_r x y : (x <? y) = true -> is_nan y = false.
Proof. intros H. exact (leb_not_nan_r _ _ (ltb_leb _ _ H)). Qed.

Lemma leb_trans x y z : (x <=? y) = true -> (y <=? z) = true -> (x <=? z) = true.
Proof.
  rewrite !leb_cmp. unfold cmp.
  destruct (SFcompare (Prim2SF x) (Prim2SF y)) as [c1|] eqn:E1; try discriminate.
  destruct (SFcompare (Prim2SF y) (Prim2SF z)) as [c2|] eqn:E2; try discriminate.
  intros L1 L2.
  rewrite (SFcompare_chain _ _ _ c1 c2 E1 E2) by (destruct c1, c2; simpl; congruence).
  destruct c1, c2; simpl; congruence.
Qed.

Lemma ltb_leb_trans x y z : (x <? y) = true -> (y <=? z) = true -> (x <? z) = true.
Proof.
  rewrite !ltb_cmp, leb_cmp. unfold cmp.
  destruct (SFcompare (Prim2SF x) (Prim2SF y)) as [c1|] eqn:E1; try discriminate.
  destruct (SFcompare (Prim2SF y) (Prim2SF z)) as [c2|] eqn:E2; try discriminate.
  intros L1 L2.
  rewrite (SFcompare_chain _ _ _ c1 c2 E1 E2) by (destruct c1, c2; simpl; congruence).
  destruct c1, c2; simpl; congruence.
Qed.

Lemma leb_ltb_trans x y z : (x <=? y) = true -> (y <? z) = true -> (x <? z) = true.
Proof.
  rewrite !ltb_cmp, leb_cmp. unfold cmp.
  destruct (SFcompare (Prim2SF x) (Prim2SF y)) as [c1|] eqn:E1; try discriminate.
  destruct (SFcompare (Prim2SF y) (Prim2SF z)) as [c2|] eqn:E2; try discriminate.
  intros L1 L2.
  rewrite (SFcompare_chain _ _ _ c1 c2 E1 E2) by (destruct c1, c2; simpl; congruence).
  destruct c1, c2; simpl; congruence.
Qed.

Lemma not_ltb_leb x y :
  is_nan x = false -> is_nan y = false -> (x <? y) = false -> (y <=? x) = true.
Proof.
  intros Hx Hy. rewrite ltb_cmp, leb_cmp, (cmp_opp x y).
  destruct (cmp_total x y Hx Hy) as [c ->]. destruct c; simpl; congruence.
Qed.

Lemma ltb_antisym x y : (x <? y) = true -> (y <? x) = false.
Proof.
  rewrite !ltb_cmp, (cmp_opp x y). destruct (cmp x y) as [[ | | ]|]; simpl; congruence.
Qed.

Lemma leb_ltb_false x y : (x <=? y) = true -> (y <? x) = false.
Proof.
  rewrite leb_cmp, ltb_cmp, (cmp_opp x y). destruct (cmp x y) as [[ | | ]|]; simpl; congruence.
Qed.

(** Rounding keeps the sign: a non-negative mantissa is never rounded to a
    negative one, so the result of [binary_round_aux] carries the sign it was
    given. *)

Lemma shr_1_nonneg mrs : (0 <= shr_m mrs)%Z -> (0 <= shr_m (shr_1 mrs))%Z.
Proof.
  destruct mrs as [m r s]; simpl. destruct m as [|p|p]; simpl; try lia.
  - destruct p; simpl; lia.
Qed.

Lemma iter_shr_1_nonneg p : forall mrs,
  (0 <= shr_m mrs)%Z -> (0 <= shr_m (SpecFloat.iter_pos shr_1 p mrs))%Z.
Proof.
  induction p as [p IH|p IH|]; simpl; intros mrs H.
  - apply IH, IH, shr_1_nonneg, H.
  - apply IH, IH, H.
  - apply shr_1_nonneg, H.
Qed.

Lemma shr_fexp_nonneg pr em m e l :
  (0 <= m)%Z -> (0 <= shr_m (fst (shr_fexp pr em m e l)))%Z.
Proof.
  intros H. unfold shr_fexp, shr.
  assert (H0 : (0 <= shr_m (shr_record_of_loc m l))%Z).
  { destruct l as [|[ | | ]]; simpl; exact H. }
  destruct (fexp pr em (Zdigits2 m + e) - e)%Z; simpl; try exact H0.
  apply iter_shr_1_nonneg, H0.
Qed.

Lemma round_nearest_even_nonneg m l : (0 <= m)%Z -> (0 <= round_nearest_even m l)%Z.
Proof.
  intros H. unfold round_nearest_even.
  destruct l as [|[ | | ]]; try lia. destruct (Z.even m); lia.
Qed.

Lemma binary_round_aux_sign pr em s m e l :
  (0 <= m)%Z -> has_sign s (binary_round_aux pr em s m e l).
Proof.
  intros H. unfold binary_round_aux.
  pose proof (shr_fexp_nonneg pr em m e l H) as H1.
  destruct (shr_fexp pr em m e l) as [mrs' e']. simpl in H1.
  pose proof (shr_fexp_nonneg pr em _ e' loc_Exact
                (round_nearest_even_nonneg _ (loc_of_shr_record mrs') H1)) as H2.
  destruct (shr_fexp pr em _ e' loc_Exact) as [mrs'' e'']. simpl in H2.
  destruct (shr_m mrs'') as [|p|p]; simpl; try reflexivity; try lia.
  destruct (e'' <=? em - pr)%Z; reflexivity.
Qed.

Lemma binary_round_sign pr em s m e : has_sign s (binary_round pr em s m e).
Proof.
  unfold binary_round. destruct (shl_align _ _ _) as [mz ez].
  apply binary_round_aux_sign. lia.
Qed.

Lemma sign_of_nonneg x :
  SFleb (S754_zero false) x = true ->
  match x with
  | S754_zero _ => True
  | S754_infinity s | S754_finite s _ _ => s = false
  | S754_nan => False
  end.
Proof.
  unfold SFleb. destruct x as [s|s| |s m e]; simpl; auto; try discriminate;
    destruct s; simpl; congruence.
Qed.

Lemma zero_is : Prim2SF 0 = S754_zero false.
Proof. reflexivity. Qed.

Lemma add_nonneg x y :
  (0 <=? x) = true -> (0 <=? y) = true -> (0 <=? x + y) = true.
Proof.
  rewrite !leb_spec, add_spec, zero_is. intros Hx Hy.
  apply sign_of_nonneg in Hx. apply sign_of_nonneg in Hy.
  unfold SF64add, SFadd.
  destruct (Prim2SF x) as [sx|sx| |sx mx ex], (Prim2SF y) as [sy|sy| |sy my ey];
    try contradiction; subst; try reflexivity;
    try (destruct sx, sy; reflexivity); try (destruct sx; reflexivity);
    try (destruct sy; reflexivity).
  simpl cond_Zopp.
  set (mz := (_ + _)%Z). assert (Hm : (0 < mz)%Z) by (subst mz; lia).
  destruct mz as [|p|p]; try lia. simpl.
  pose proof (binary_round_sign prec emax false p (Z.min ex ey)) as Hs.
  destruct (binary_round prec emax false p (Z.min ex ey)) as [s|s| |s m e];
    simpl in Hs; try contradiction; subst; reflexivity.
Qed.

Lemma div_zero_by_zero x y :
  (x =? 0) = true -> (y =? 0) = true -> is_nan (x / y) = true.
Proof.
  rewrite !eqb_spec, zero_is. intros Hx Hy.
  unfold is_nan. rewrite eqb_spec, div_spec. unfold SF64div, SFdiv.
  destruct (Prim2SF x) as [sx|sx| |sx mx ex]; simpl in Hx; try discriminate;
    try (destruct sx; discriminate).
  destruct (Prim2SF y) as [sy|sy| |sy my ey]; simpl in Hy; try discriminate;
    try (destruct sy; discriminate).
  reflexivity.
Qed.

Lemma eqb_refl x : is_nan x = false -> (x =? x) = true.
Proof. intros H. rewrite eqb_cmp, (cmp_diag x H). reflexivity. Qed.

Lemma leb_not_ltb_eqb x y : (x <=? y) = true -> (x <? y) = false -> (x =? y) = true.
Proof.
  rewrite leb_cmp, ltb_cmp, eqb_cmp. destruct (cmp x y) as [[ | | ]|]; congruence.
Qed.

Lemma ltb_irrefl x : (x <? x) = false.
Proof.
  destruct (x <? x) eqn:E; [|reflexivity].
  rewrite (ltb_antisym x x E) in E. discriminate.
Qed.

Lemma infinity_is : Prim2SF infinity = S754_infinity false.
Proof. reflexivity. Qed.

(** Dividing by a zero never gives a finite value: the quotient is a NaN or
    an infinity. *)
Lemma div_by_zero_not_finite x y :
  (y =? 0) = true -> PrimFloat.is_finite (x / y) = false.
Proof.
  rewrite eqb_spec, zero_is. intros Hy.
  unfold PrimFloat.is_finite, is_nan, is_infinity.
  rewrite !eqb_spec, abs_spec, div_spec, infinity_is. unfold SF64div, SFdiv.
  destruct (Prim2SF y) as [sy|sy| |sy my ey]; simpl in Hy; try discriminate;
    try (destruct sy; discriminate).
  destruct (Prim2SF x) as [sx|sx| |sx mx ex]; try reflexivity;
    destruct sx, sy; reflexivity.
Qed.

Lemma eqb_leb x y : (x =? y) = true -> (x <=? y) = true.
Proof. rewrite eqb_cmp, leb_cmp. destruct (cmp x y) as [[ | | ]|]; congruence. Qed.

Lemma eqb_sym x y : (x =? y) = (y =? x).
Proof.
  rewrite !eqb_cmp, (cmp_opp x y). destruct (cmp x y) as [[ | | ]|]; reflexivity.
Qed.

Lemma leb_antisym_eqb x y : (x <=? y) = true -> (y <=? x) = true -> (x =? y) = true.
Proof.
  rewrite !leb_cmp, eqb_cmp, (cmp_opp x y).
  destruct (cmp x y) as [[ | | ]|]; simpl; congruence.
Qed.

End FloatOrder.

(** ** The structure of [step] and [reset] *)

Section EpisodeFacts.

Context {C : Collaborators} {Sn : Scenario}.

Local Open Scope float_scope.

Ltac break_match :=
  repeat match goal with
         | |- context [match ?x with _ => _ end] => destruct x eqn:?
         | H : context [match ?x with _ => _ end] |- _ => destruct x eqn:?
         end.

(** What [advance] has done when it hands over to the observation. *)
Lemma advance_return a e prog e1 :
  advance a e = (Return prog, e1) ->
  exists v p,
    vessel e = Some v /\ path e = Some p /\
    prog = progress (config e) p (vessel_step v a) (max_path_prog e) /\
    config e1 = config e /\
    vessel e1 = Some (vessel_step v a) /\
    path e1 = Some p /\
    scene e1 = scene e /\
    max_path_prog e1 = update_max_path_prog (max_path_prog e) prog /\
    path_prog e1 = Some (np_append (path_prog e) prog) /\
    target_arclength e1 =
      update_target_arclength (config e) p (look_ahead_arclength (scene e))
        (max_path_prog e1) /\
    past_actions e1 = past_actions e ++ [a] /\
    past_obs e1 = past_obs e /\ t_step e1 = t_step e /\
    past_rewards e1 = past_rewards e.
Proof.
  unfold advance; cbn. intros H.
  destruct (vessel e) as [v|] eqn:Hv; [|discriminate].
  destruct (path e) as [p|] eqn:Hp; [|discriminate].
  injection H as <- <-. exists v, p. cbn. rewrite ?Hv, ?Hp. repeat split; reflexivity.
Qed.

(** [advance] fails only for want of a vessel or a path, after it has
    recorded the action. *)
Lemma advance_raise a e x e1 :
  advance a e = (Raise x, e1) ->
  x = AttributeError /\ (vessel e = None \/ path e = None) /\
  past_actions e1 = past_actions e ++ [a] /\
  max_path_prog e1 = max_path_prog e /\
  target_arclength e1 = target_arclength e /\
  path e1 = path e /\ config e1 = config e /\ t_step e1 = t_step e.
Proof.
  unfold advance; cbn. intros H.
  destruct (vessel e) as [v|] eqn:Hv.
  - destruct (path e) as [p|] eqn:Hp; [discriminate|].
    injection H as <- <-. cbn. rewrite ?Hp. repeat split; auto.
  - injection H as <- <-. cbn. repeat split; auto.
Qed.

(** The division of line 188 fails only on a zero divisor between two plain
    Python numbers, and otherwise yields the IEEE quotient. *)
Lemma true_divide_raise k1 k2 x y z :
  true_divide k1 k2 x y = Raise z ->
  z = ZeroDivisionError /\ (y =? 0) = true /\ k1 || k2 = false.
Proof.
  unfold true_divide. destruct (y =? 0); cbn; [|discriminate].
  destruct (k1 || k2); cbn; [discriminate|].
  intros H. injection H as <-. repeat split.
Qed.

Lemma true_divide_return k1 k2 x y r :
  true_divide k1 k2 x y = Return r -> r = np_divide x y.
Proof.
  unfold true_divide. destruct ((y =? 0) && negb (k1 || k2)); [discriminate|].
  intros H. injection H as <-. reflexivity.
Qed.

Lemma true_divide_zero k1 k2 x y :
  (y =? 0) = true ->
  true_divide k1 k2 x y =
  if k1 || k2 then Return (np_divide x y) else Raise ZeroDivisionError.
Proof.
  intros H. unfold true_divide. rewrite H. destruct (k1 || k2); reflexivity.
Qed.

(** [conclude] leaves the progress attributes, the vessel, the path and the
    recorded actions as it found them. *)
Lemma conclude_frame prog k e :
  let e' := snd (conclude prog k e) in
  config e' = config e /\ vessel e' = vessel e /\ path e' = path e /\
  max_path_prog e' = max_path_prog e /\
  target_arclength e' = target_arclength e /\
  path_prog e' = path_prog e /\ past_actions e' = past_actions e.
Proof.
  unfold conclude, true_divide; cbn. break_match; cbn; repeat split; congruence.
Qed.

Lemma step_unfold a e :
  step a e =
  match advance a e with
  | (Raise x, e1) => (Raise x, e1)
  | (Return prog, e1) => conclude prog (prog_is_numpy a e) e1
  end.
Proof. reflexivity. Qed.

(** Every call to [step] records its action, whatever happens next. *)
Lemma step_past_actions a e :
  past_actions (snd (step a e)) = past_actions e ++ [a].
Proof.
  rewrite step_unfold. destruct (advance a e) as [[prog|x] e1] eqn:Ha.
  - destruct (conclude_frame prog (prog_is_numpy a e) e1) as (_ & _ & _ & _ & _ & _ & ->).
    apply advance_return in Ha. destruct Ha as (v & p & Ha). apply Ha.
  - apply advance_raise in Ha. apply Ha.
Qed.

Lemma step_config a e : config (snd (step a e)) = config e.
Proof.
  rewrite step_unfold. destruct (advance a e) as [[prog|x] e1] eqn:Ha.
  - destruct (conclude_frame prog (prog_is_numpy a e) e1) as (-> & _).
    apply advance_return in Ha. destruct Ha as (v & p & Ha). apply Ha.
  - apply advance_raise in Ha. apply Ha.
Qed.

(** The progress attributes after a step on an object with vessel and path. *)
Lemma step_progress_fields a e v p :
  vessel e = Some v -> path e = Some p ->
  let prog := progress (config e) p (vessel_step v a) (max_path_prog e) in
  let e' := snd (step a e) in
  vessel e' = Some (vessel_step v a) /\ path e' = Some p /\
  max_path_prog e' = update_max_path_prog (max_path_prog e) prog /\
  path_prog e' = Some (np_append (path_prog e) prog) /\
  target_arclength e' =
    update_target_arclength (config e) p (look_ahead_arclength (scene e))
      (max_path_prog e').
Proof.
  intros Hv Hp prog e'. subst e'. rewrite step_unfold.
  destruct (advance a e) as [[prog'|x] e1] eqn:Ha.
  - destruct (conclude_frame prog' (prog_is_numpy a e) e1) as (_ & -> & -> & -> & -> & -> & _).
    apply advance_return in Ha.
    destruct Ha as (v' & p' & Hv' & Hp' & -> & _ & Hv1 & Hp1 & _ & Hm & Hpp & Ht & _).
    rewrite Hv in Hv'. rewrite Hp in Hp'. injection Hv' as <-. injection Hp' as <-.
    subst prog. rewrite Hv1, Hp1, Hpp, Ht, Hm. repeat split; reflexivity.
  - apply advance_raise in Ha. destruct Ha as (_ & [Hn|Hn] & _); congruence.
Qed.

(** The best progress never moves back, and stays a non-negative number. *)
Lemma update_max_path_prog_ge mpp prog :
  is_nan mpp = false -> (mpp <=? update_max_path_prog mpp prog) = true.
Proof.
  intros H. unfold update_max_path_prog.
  destruct (mpp <? prog) eqn:E.
  - apply ltb_leb, E.
  - apply leb_refl, H.
Qed.

Lemma step_max_path_prog_ge a e :
  is_nan (max_path_prog e) = false ->
  (max_path_prog e <=? max_path_prog (snd (step a e))) = true.
Proof.
  intros H. rewrite step_unfold.
  destruct (advance a e) as [[prog|x] e1] eqn:Ha.
  - destruct (conclude_frame prog (prog_is_numpy a e) e1) as (_ & _ & _ & -> & _).
    apply advance_return in Ha.
    destruct Ha as (v & p & _ & _ & _ & _ & _ & _ & _ & -> & _).
    apply update_max_path_prog_ge, H.
  - apply advance_raise in Ha. destruct Ha as (_ & _ & _ & Hm & _).
    cbn [snd]. rewrite Hm. apply leb_refl, H.
Qed.

Lemma step_episode_inv a e : episode_inv e -> episode_inv (snd (step a e)).
Proof.
  intros ([v Hv] & [p Hp] & H0).
  destruct (step_progress_fields a e v p Hv Hp) as (Hv' & Hp' & _).
  split; [eauto|]. split; [eauto|].
  apply (leb_trans _ _ _ H0), step_max_path_prog_ge.
  apply (leb_not_nan_r _ _ H0).
Qed.

Lemma regenerate_return e mem :
  snapshot e = Return mem ->
  exists e1, regenerate e = (Return tt, e1) /\
    (exists v, vessel e1 = Some v) /\ (exists p, path e1 = Some p) /\
    max_path_prog e1 = 0 /\ target_arclength e1 = 0 /\
    past_actions e1 = [(0, 0)] /\ t_step e1 = 0%Z /\ config e1 = config e /\
    path_prog e1 = None /\ past_obs e1 = None.
Proof.
  intros Hs. unfold regenerate. rewrite Hs.
  destruct (generate (cleared mem e)) as [[v p] sc].
  eexists. split; [reflexivity|]. cbn. repeat split; eauto.
Qed.

(** What [reset] leaves behind once it is past the snapshot, whether the
    observation check passes or not. *)
Lemma reset_fields e mem :
  snapshot e = Return mem ->
  let e' := snd (reset e) in
  (exists v, vessel e' = Some v) /\ (exists p, path e' = Some p) /\
  max_path_prog e' = 0 /\ target_arclength e' = 0 /\
  past_actions e' = [(0, 0)] /\ t_step e' = 0%Z /\ config e' = config e.
Proof.
  intros Hs. destruct (regenerate_return e mem Hs) as (e1 & Hr & H).
  unfold reset. rewrite Hr. cbn.
  destruct (observe e1) as [obs sc]. destruct (np_isnan_any obs); cbn; intuition.
Qed.

Lemma reset_episode_inv e mem :
  snapshot e = Return mem -> episode_inv (snd (reset e)).
Proof.
  intros Hs. destruct (reset_fields e mem Hs) as (Hv & Hp & Hm & _).
  split; [exact Hv|]. split; [exact Hp|]. rewrite Hm. reflexivity.
Qed.

Lemma in_episode_inv e : in_episode e -> episode_inv e.
Proof.
  induction 1 as [e mem Hs|a e _ IH].
  - exact (reset_episode_inv e mem Hs).
  - exact (step_episode_inv a e IH).
Qed.

(** With a vessel and a path in place, the snapshot of [reset] succeeds. *)
Lemma snapshot_return e :
  (exists v, vessel e = Some v) -> (exists p, path e = Some p) ->
  exists mem, snapshot e = Return mem.
Proof.
  intros [v Hv] [p Hp]. unfold snapshot. rewrite Hv, Hp.
  destruct (0 <? t_step e)%Z; eauto.
Qed.

(** Every object that the constructor, [reset] and [step] can produce is in
    an episode. *)
Lemma reachable_in_episode e : reachable e -> in_episode e.
Proof.
  induction 1 as [cfg|e _ IH|a e _ IH].
  - apply (episode_start (blank cfg) None). reflexivity.
  - destruct (in_episode_inv e IH) as (Hv & Hp & _).
    destruct (snapshot_return e Hv Hp) as [mem Hs].
    exact (episode_start e mem Hs).
  - exact (episode_step a e IH).
Qed.

Lemma steps_app acts1 acts2 e : steps (acts1 ++ acts2) e = steps acts2 (steps acts1 e).
Proof.
  revert e. induction acts1 as [|a acts1 IH]; intros e; cbn; [reflexivity|apply IH].
Qed.

Lemma steps_in_episode acts e : in_episode e -> in_episode (steps acts e).
Proof.
  revert e. induction acts as [|a acts IH]; intros e H; cbn; [exact H|].
  apply IH, episode_step, H.
Qed.

End EpisodeFacts.

(** ** The episode bookkeeping *)

Section Bookkeeping.

Context {C : Collaborators} {Sn : Scenario}.

Local Open Scope float_scope.

Lemma conclude_t_step prog k e :
  t_step (snd (conclude prog k e)) =
  if returned (fst (conclude prog k e)) then (t_step e + 1)%Z else t_step e.
Proof.
  unfold conclude; cbn.
  destruct (observe e) as [obs sc]. destruct (np_isnan_any obs); [reflexivity|].
  cbn. destruct (past_obs e); [|reflexivity].
  destruct (step_reward _) as [[[done rw] info] sc']. cbn.
  destruct (path e); [|reflexivity].
  destruct (true_divide _ _ _ _); reflexivity.
Qed.

(** The step counter moves exactly when [step] returns. *)
Lemma step_t_step a e :
  t_step (snd (step a e)) =
  if returned (fst (step a e)) then (t_step e + 1)%Z else t_step e.
Proof.
  rewrite step_unfold. destruct (advance a e) as [[prog|x] e1] eqn:Ha.
  - rewrite conclude_t_step. apply advance_return in Ha.
    destruct Ha as (v & p & Ha). decompose [and] Ha.
    match goal with H : t_step e1 = _ |- _ => rewrite H end. reflexivity.
  - apply advance_raise in Ha. cbn. apply Ha.
Qed.

Lemma steps_past_actions acts e :
  past_actions (steps acts e) = past_actions e ++ acts.
Proof.
  revert e. induction acts as [|a acts IH]; intros e; cbn.
  - now rewrite app_nil_r.
  - rewrite IH, step_past_actions, <- app_assoc. reflexivity.
Qed.

Lemma steps_t_step_returned acts e :
  all_returned acts e = true ->
  t_step (steps acts e) = (t_step e + Z.of_nat (List.length acts))%Z.
Proof.
  revert e. induction acts as [|a acts IH]; intros e H; cbn [steps List.length].
  - lia.
  - cbn in H. apply andb_prop in H. destruct H as [Hr Hrest].
    rewrite (IH _ Hrest), step_t_step, Hr. lia.
Qed.

(** C9.  Immediately after [reset] the history of past actions holds one row,
    the zero action [[0, 0]] that no agent issued; every call to [step]
    appends exactly one row, the action it was given; so after a run of steps
    the history is the zero row followed by the actions of the run, and when
    every step returned, the step counter [t_step] is the number of steps
    and the history has [t_step + 1] rows. *)
Theorem past_actions_history :
  (forall e mem, snapshot e = Return mem ->
     past_actions (snd (reset e)) = [(0, 0)]) /\
  (forall a e, past_actions (snd (step a e)) = past_actions e ++ [a]) /\
  (forall e mem acts, snapshot e = Return mem ->
     let e' := steps acts (snd (reset e)) in
     past_actions e' = (0, 0) :: acts /\
     hd_error (past_actions e') = Some (0, 0) /\
     (all_returned acts (snd (reset e)) = true ->
      t_step e' = Z.of_nat (List.length acts) /\
      Z.of_nat (List.length (past_actions e')) = (t_step e' + 1)%Z)).
Proof.
  split; [|split].
  - intros e mem Hs. apply (reset_fields e mem Hs).
  - intros a e. apply step_past_actions.
  - intros e mem acts Hs e'. subst e'.
    destruct (reset_fields e mem Hs) as (_ & _ & _ & _ & Hpa & Ht & _).
    rewrite steps_past_actions, Hpa. cbn [app hd_error].
    split; [reflexivity|]. split; [reflexivity|].
    intros Hr. rewrite (steps_t_step_returned _ _ Hr), Ht. cbn [List.length]. lia.
Qed.

(** C2.  [reset] sets [max_path_prog] to 0, and within the episode that it
    starts no step makes it smaller: its value after a step, and after any
    further run of steps, is at least its value before. *)
Theorem max_path_prog_nondecreasing :
  (forall e mem, snapshot e = Return mem -> max_path_prog (snd (reset e)) = 0) /\
  (forall e a, in_episode e ->
     (max_path_prog e <=? max_path_prog (snd (step a e))) = true) /\
  (forall e acts1 acts2, in_episode e ->
     (max_path_prog (steps acts1 e) <=? max_path_prog (steps (acts1 ++ acts2) e))
     = true).
Proof.
  split; [|split].
  - intros e mem Hs. apply (reset_fields e mem Hs).
  - intros e a He. apply step_max_path_prog_ge.
    destruct (in_episode_inv e He) as (_ & _ & H0). exact (leb_not_nan_r _ _ H0).
  - intros e acts1 acts2 He. rewrite steps_app.
    pose proof (steps_in_episode acts1 e He) as H1. clear He.
    set (e1 := steps acts1 e) in *. clearbody e1. clear e acts1.
    revert e1 H1. induction acts2 as [|a acts IH]; intros e He; cbn [steps].
    + destruct (in_episode_inv e He) as (_ & _ & H0).
      apply leb_refl. exact (leb_not_nan_r _ _ H0).
    + apply (leb_trans _ (max_path_prog (snd (step a e)))).
      * apply step_max_path_prog_ge.
        destruct (in_episode_inv e He) as (_ & _ & H0). exact (leb_not_nan_r _ _ H0).
      * apply IH, episode_step, He.
Qed.

(** C10.  [step] is not atomic.  When the observation check fails, the object
    keeps what the step did before the check: the action is the new last row
    of the history, the vessel is the advanced one, [max_path_prog] is the
    progress of this step when that is greater than the old value and the old
    value otherwise, [path_prog] is the old history with the progress of this
    step appended (behind a leading [None] when the history was still
    [None]), and [target_arclength] is recomputed from the new best progress.
    Nothing past the check has happened (no observation recorded, the step
    counter unchanged), and the object is not the one the call started
    from. *)
Theorem step_not_atomic a e obs e' :
  step a e = (Raise (AssertionError obs), e') ->
  exists v p,
    vessel e = Some v /\ path e = Some p /\
    let prog := progress (config e) p (vessel_step v a) (max_path_prog e) in
    let best := if max_path_prog e <? prog then prog else max_path_prog e in
    let ahead := best + min_la_dist (config e) in
    let target :=
      match look_ahead_arclength (scene e) with
      | None => ahead
      | Some la => if la <? ahead then ahead else la
      end in
    past_actions e' = past_actions e ++ [a] /\
    vessel e' = Some (vessel_step v a) /\
    max_path_prog e' = best /\
    path_prog e' =
      Some (match path_prog e with
            | None => [None; Some prog]
            | Some l => l ++ [Some prog]
            end) /\
    target_arclength e' = (if path_length p <? target then path_length p else target) /\
    path_prog e' <> path_prog e /\
    past_obs e' = past_obs e /\ t_step e' = t_step e /\
    e' <> e.
Proof.
  intros H.
  assert (He' : e' = snd (step a e)) by (rewrite H; reflexivity).
  assert (Hv : exists v p, vessel e = Some v /\ path e = Some p).
  { rewrite step_unfold in H. destruct (advance a e) as [[prog|x] e1] eqn:Ha.
    - apply advance_return in Ha. destruct Ha as (v & p & Hv & Hp & _). eauto.
    - apply advance_raise in Ha. destruct Ha as (-> & _). discriminate. }
  destruct Hv as (v & p & Hv & Hp). exists v, p.
  destruct (step_progress_fields a e v p Hv Hp) as (Hv' & _ & Hm & Hpp & Ht).
  rewrite <- He' in *.
  assert (Hpa : past_actions e' = past_actions e ++ [a])
    by (rewrite He'; apply step_past_actions).
  split; [exact Hv|]. split; [exact Hp|]. cbn zeta.
  split; [exact Hpa|]. split; [exact Hv'|].
  split; [rewrite Hm; reflexivity|].
  split; [rewrite Hpp; reflexivity|].
  split.
  { rewrite Ht, Hm. unfold update_target_arclength, update_max_path_prog, py_min, py_max.
    destruct (look_ahead_arclength (scene e)); reflexivity. }
  split.
  { rewrite Hpp. destruct (path_prog e) as [l|]; cbn; [|discriminate].
    intros E. injection E as E. apply (f_equal (@List.length _)) in E.
    rewrite length_app in E. cbn in E. lia. }
  assert (Hr : returned (fst (step a e)) = false) by (rewrite H; reflexivity).
  split; [|split].
  - rewrite step_unfold in H. destruct (advance a e) as [[prog|x] e1] eqn:Ha.
    + apply advance_return in Ha. destruct Ha as (v1 & p1 & Ha).
      decompose [and] Ha. clear Ha.
      unfold conclude in H. destruct (observe e1) as [obs1 sc].
      destruct (np_isnan_any obs1).
      * injection H as _ <-. cbn. congruence.
      * cbn in H. destruct (past_obs e1); [|discriminate].
        destruct (step_reward _) as [[[done rw] info] sc']. cbn in H.
        destruct (path e1); [|discriminate].
        destruct (true_divide _ _ _ _) as [fr|x] eqn:Hd; [discriminate|].
        apply true_divide_raise in Hd. destruct Hd as (-> & _). discriminate.
    + apply advance_raise in Ha. destruct Ha as (-> & _). discriminate.
  - rewrite He', step_t_step, Hr. reflexivity.
  - intros ->. apply (f_equal (@List.length _)) in Hpa.
    rewrite length_app in Hpa. cbn in Hpa. lia.
Qed.

End Bookkeeping.

(** ** Progress tracking and the look-ahead target *)

Section Progress.

Context {C : Collaborators} {Sn : Scenario}.

Local Open Scope float_scope.

(** [min(max(0, x), len)] clamps [x] to the interval from 0 to [len] when
    that interval is not empty.  A NaN is taken to 0. *)
Lemma py_min_max_clamped x len :
  (0 <=? len) = true -> clamped x 0 len (py_min (py_max 0 x) len).
Proof.
  intros HL. pose proof (leb_not_nan_r _ _ HL) as HLn.
  unfold clamped, py_min, py_max.
  destruct (0 <? x) eqn:H0x.
  - pose proof (ltb_not_nan_r _ _ H0x) as Hxn.
    destruct (len <? x) eqn:HLx.
    + split; [exact HL|]. split; [apply leb_refl, HLn|]. split; [|split].
      * intros _ HxL. rewrite (leb_ltb_false _ _ HxL) in HLx. discriminate.
      * intros Hx0. rewrite (ltb_antisym _ _ H0x) in Hx0. discriminate.
      * intros _. apply eqb_refl, HLn.
    + split; [apply ltb_leb, H0x|]. split; [apply not_ltb_leb; assumption|].
      split; [|split].
      * intros _ _. apply eqb_refl, Hxn.
      * intros Hx0. rewrite (ltb_antisym _ _ H0x) in Hx0. discriminate.
      * intros H. discriminate.
  - rewrite (leb_ltb_false _ _ HL).
    split; [reflexivity|]. split; [exact HL|]. split; [|split].
    + intros Hx _. apply leb_not_ltb_eqb; assumption.
    + intros _. reflexivity.
    + intros HLx. rewrite (leb_ltb_trans _ _ _ HL HLx) in H0x. discriminate.
Qed.

(** C1.  The progress value that [step] records is chosen by the two-criterion
    switch.  With [d] and [ca] the distance and the arclength of the closest
    point to the advanced vessel: when [d] is below
    [max_closest_point_distance], or the absolute value of the wrapped
    heading error at the closest point is below
    [max_closest_point_heading_error], the progress is [ca]; otherwise it is
    the forward projection
    [max_path_prog + cos(course_path_angle) * speed * t_step_size] taken
    through [min(max(0, .), path.length)], which clamps it to the interval
    from 0 to the path length. *)
Theorem step_progress_dual_criterion a e v0 p d q ca :
  vessel e = Some v0 -> path e = Some p ->
  let v := vessel_step v0 a in
  get_closest_point_distance p (position v) = (d, q, ca) ->
  let heading_error := princip (get_direction p ca - course v) in
  let course_path_angle := princip (get_direction p (max_path_prog e) - course v) in
  let forward :=
    max_path_prog e + np_cos course_path_angle * speed v * t_step_size (config e) in
  exists prog,
    path_prog (snd (step a e)) = Some (np_append (path_prog e) prog) /\
    ((d <? max_closest_point_distance (config e)) = true \/
     (abs heading_error <? max_closest_point_heading_error (config e)) = true ->
     prog = ca) /\
    ((d <? max_closest_point_distance (config e)) = false ->
     (abs heading_error <? max_closest_point_heading_error (config e)) = false ->
     prog = py_min (py_max 0 forward) (path_length p) /\
     ((0 <=? path_length p) = true -> clamped forward 0 (path_length p) prog)).
Proof.
  intros Hv Hp v Hc heading_error course_path_angle forward.
  exists (progress (config e) p v (max_path_prog e)).
  split; [apply (step_progress_fields a e v0 p Hv Hp)|].
  unfold progress. rewrite Hc.
  fold heading_error. fold course_path_angle. fold forward.
  split.
  - intros [H|H]; rewrite H; [reflexivity|rewrite orb_true_r; reflexivity].
  - intros H1 H2. rewrite H1, H2. cbn [orb]. split; [reflexivity|].
    apply py_min_max_clamped.
Qed.

(** The look-ahead target computed at lines 178 to 182 is ahead of the best
    progress by [min_la_dist] at least, unless the path ends before. *)
Lemma update_target_arclength_ahead cfg p la mpp :
  (0 <=? path_length p) = true ->
  (0 <=? mpp) = true -> (0 <=? min_la_dist cfg) = true ->
  (forall x, la = Some x -> is_nan x = false) ->
  let sum := mpp + min_la_dist cfg in
  let target := update_target_arclength cfg p la mpp in
  (0 <=? target) = true /\ (target <=? path_length p) = true /\
  (if path_length p <? sum then target = path_length p else (sum <=? target) = true).
Proof.
  intros HL Hm Hd Hla sum target.
  pose proof (add_nonneg _ _ Hm Hd) as Hs. fold sum in Hs.
  pose proof (leb_not_nan_r _ _ Hs) as Hsn.
  pose proof (leb_not_nan_r _ _ HL) as HLn.
  set (t := match la with
            | None => sum
            | Some look_ahead => py_max look_ahead sum
            end).
  assert (Ht : (sum <=? t) = true).
  { subst t. destruct la as [x|]; [|apply leb_refl, Hsn].
    unfold py_max. destruct (x <? sum) eqn:E; [apply leb_refl, Hsn|].
    apply not_ltb_leb; auto. }
  pose proof (leb_not_nan_r _ _ Ht) as Htn.
  assert (Etarget : target = py_min t (path_length p)) by reflexivity.
  rewrite Etarget. clear Etarget. unfold py_min.
  destruct (path_length p <? sum) eqn:HLs.
  - rewrite (ltb_leb_trans _ _ _ HLs Ht).
    split; [exact HL|]. split; [apply leb_refl, HLn|reflexivity].
  - pose proof (not_ltb_leb _ _ HLn Hsn HLs) as HsL.
    destruct (path_length p <? t) eqn:HLt.
    + split; [exact HL|]. split; [apply leb_refl, HLn|exact HsL].
    + split; [exact (leb_trans _ _ _ Hs Ht)|].
      split; [apply not_ltb_leb; assumption|exact Ht].
Qed.

(** C3, as amended.  After every step of an episode on a path of non-negative
    length, with a non-negative [min_la_dist] and a look-ahead arclength that
    is unset or a number, [target_arclength] lies between 0 and the path
    length and is at least [max_path_prog + min_la_dist], except when that
    sum exceeds the path length, in which case it is the path length. *)
Theorem target_arclength_after_step a e p :
  in_episode e -> path e = Some p ->
  (0 <=? path_length p) = true ->
  (0 <=? min_la_dist (config e)) = true ->
  (forall x, look_ahead_arclength (scene e) = Some x -> is_nan x = false) ->
  target_ahead (snd (step a e)) p.
Proof.
  intros He Hp HL Hd Hla.
  destruct (in_episode_inv e He) as ([v Hv] & _ & _).
  destruct (step_progress_fields a e v p Hv Hp) as (_ & _ & _ & _ & Ht).
  pose proof (in_episode_inv _ (episode_step a e He)) as (_ & _ & Hm).
  unfold target_ahead. rewrite Ht, step_config.
  apply update_target_arclength_ahead; assumption.
Qed.

End Progress.

(** ** The observation check *)

Section ObservationCheck.

Context {C : Collaborators} {Sn : Scenario}.

Lemma np_isnan_any_false v :
  np_isnan_any v = false <-> Forall (fun x => is_nan x = false) v.
Proof.
  unfold np_isnan_any. induction v as [|x v IH]; cbn.
  - split; [constructor|reflexivity].
  - rewrite orb_false_iff, IH. split.
    + intros [H1 H2]. constructor; assumption.
    + intros H. inversion H; subst. split; assumption.
Qed.

(** C4, as amended.  [step] and [reset] check the assembled observation for
    NaN values only.  When it holds a NaN, the call stops at once with an
    [AssertionError] whose message carries that very vector; an observation
    that [step] or [reset] returns holds no NaN.  Infinite values are not
    looked for. *)
Theorem observation_nan_check :
  (forall a e prog e1,
     advance a e = (Return prog, e1) ->
     np_isnan_any (fst (observe e1)) = true ->
     fst (step a e) = Raise (AssertionError (fst (observe e1)))) /\
  (forall a e obs rw done info e',
     step a e = (Return (obs, rw, done, info), e') ->
     Forall (fun x => is_nan x = false) obs) /\
  (forall e u e1,
     regenerate e = (Return u, e1) ->
     np_isnan_any (fst (observe e1)) = true ->
     fst (reset e) = Raise (AssertionError (fst (observe e1)))) /\
  (forall e obs e',
     reset e = (Return obs, e') -> Forall (fun x => is_nan x = false) obs).
Proof.
  repeat split.
  - intros a e prog e1 Ha Hn. rewrite step_unfold, Ha. unfold conclude.
    destruct (observe e1) as [obs sc]. cbn [fst] in Hn |- *. rewrite Hn. reflexivity.
  - intros a e obs rw done info e' H. apply np_isnan_any_false.
    rewrite step_unfold in H. destruct (advance a e) as [[prog|x] e1]; [|discriminate].
    unfold conclude in H. destruct (observe e1) as [obs1 sc].
    destruct (np_isnan_any obs1) eqn:Hn; [discriminate|].
    cbn in H. destruct (past_obs e1); [|discriminate].
    destruct (step_reward _) as [[[sdone srw] sinfo] sc']. cbn in H.
    destruct (path e1); [|discriminate].
    destruct (true_divide _ _ _ _); [|discriminate].
    injection H as <- _ _ _ _. exact Hn.
  - intros e u e1 Hr Hn. unfold reset. rewrite Hr.
    destruct (observe e1) as [obs sc]. cbn [fst] in Hn |- *. rewrite Hn. reflexivity.
  - intros e obs e' H. apply np_isnan_any_false.
    unfold reset in H. destruct (regenerate e) as [[u|x] e1]; [|discriminate].
    destruct (observe e1) as [obs1 sc].
    destruct (np_isnan_any obs1) eqn:Hn; [discriminate|].
    injection H as <- _. exact Hn.
Qed.

End ObservationCheck.

(** ** Termination and the progress fraction *)

Section Termination.

Context {C : Collaborators} {Sn : Scenario}.

Local Open Scope float_scope.

Lemma dict_get_set d k v : dict_get (dict_set d k v) k = Some v.
Proof.
  induction d as [|[k' v'] d IH]; cbn.
  - now rewrite String.eqb_refl.
  - destruct (String.eqb k' k) eqn:E; cbn; rewrite E; [reflexivity|exact IH].
Qed.

Lemma dict_get_set_other d k k' v :
  k' <> k -> dict_get (dict_set d k v) k' = dict_get d k'.
Proof.
  intros Hk. induction d as [|[k0 v0] d IH]; cbn.
  - destruct (String.eqb k k') eqn:E; [|reflexivity].
    apply String.eqb_eq in E. congruence.
  - destruct (String.eqb k0 k) eqn:E; cbn.
    + apply String.eqb_eq in E. subst k0.
      destruct (String.eqb k k') eqn:E'; [|reflexivity].
      apply String.eqb_eq in E'. congruence.
    + destruct (String.eqb k0 k'); [reflexivity|exact IH].
Qed.

(** What a call to [step] that returns has done after the observation. *)
Lemma step_return a e obs rw done info e' :
  step a e = (Return (obs, rw, done, info), e') ->
  exists prog e0 sc0 rows sdone sinfo sc p,
    advance a e = (Return prog, e0) /\
    observe e0 = (obs, sc0) /\ np_isnan_any obs = false /\
    past_obs e0 = Some rows /\
    step_reward (set_past_obs (Some (rows ++ [obs])) (set_scene sc0 e0))
      = (sdone, rw, sinfo, sc) /\
    path e0 = Some p /\
    done = (max_timestemps (config e) <? t_step e + 1)%Z || sdone /\
    info = dict_set sinfo "progress" (PyFloat (np_divide prog (path_length p))) /\
    t_step e' = (t_step e + 1)%Z /\
    scene e' = sc /\
    past_rewards e' = past_rewards e ++ [rw] /\
    cumulative_reward e' = cumulative_reward e + rw.
Proof.
  intros H. rewrite step_unfold in H.
  destruct (advance a e) as [[prog|x] e0] eqn:Ha; [|discriminate].
  pose proof (advance_return a e prog e0 Ha) as (v & p & Hv & Hp & _ & Hc & _ & Hp0 &
    Hsc & _ & _ & _ & _ & Hpo & Ht & Hpr).
  unfold conclude in H. destruct (observe e0) as [obs0 sc0] eqn:Ho.
  destruct (np_isnan_any obs0) eqn:Hn; [discriminate|].
  cbn in H. destruct (past_obs e0) as [rows|] eqn:Hrows; [|discriminate].
  destruct (step_reward _) as [[[sdone srw] sinfo] sc] eqn:Hs. cbn in H.
  rewrite Hp0 in H.
  destruct (true_divide _ _ _ _) as [fr|x] eqn:Hd; [|discriminate].
  apply true_divide_return in Hd. subst fr. injection H as <- <- <- <- <-.
  exists prog, e0, sc0, rows, sdone, sinfo, sc, p. cbn.
  rewrite Hc, Ht, Hpr.
  assert (Hcr : cumulative_reward e0 = cumulative_reward e).
  { unfold advance in Ha. cbn in Ha. rewrite Hv in Ha. cbn in Ha. rewrite Hp in Ha.
    injection Ha as _ <-. reflexivity. }
  rewrite Hcr. repeat split; try reflexivity; assumption.
Qed.

(** C5, as amended.  On every step that returns, the reward shaper is run
    first, on the object that lines 158 to 186 have produced, whose step
    counter and rewards have not moved yet, and the step limit is checked
    last, on the incremented counter.  The episode is done when the limit is
    exceeded or the shaper says so, and the reward and the [info] entries are
    the shaper's in either case.  In particular, when the incremented count
    exceeds [max_timestemps], [done] is [True] whatever the shaper
    decided. *)
Theorem step_limit_checked_last a e obs rw done info e' :
  step a e = (Return (obs, rw, done, info), e') ->
  let timeout := (max_timestemps (config e) <? t_step e + 1)%Z in
  exists prog e0 sc0 rows sdone sinfo sc,
    advance a e = (Return prog, e0) /\ observe e0 = (obs, sc0) /\
    past_obs e0 = Some rows /\
    let e1 := set_past_obs (Some (rows ++ [obs])) (set_scene sc0 e0) in
    step_reward e1 = (sdone, rw, sinfo, sc) /\
    t_step e1 = t_step e /\ past_rewards e1 = past_rewards e /\
    t_step e' = (t_step e + 1)%Z /\
    done = timeout || sdone /\
    (timeout = true -> done = true) /\
    (timeout = false -> done = sdone) /\
    (forall k, k <> "progress"%string -> dict_get info k = dict_get sinfo k).
Proof.
  intros H timeout.
  destruct (step_return _ _ _ _ _ _ _ H) as
    (prog & e0 & sc0 & rows & sdone & sinfo & sc & p & Ha & Ho & _ & Hrows & Hs & _ &
     Hd & Hi & Ht & _).
  destruct (advance_return a e prog e0 Ha) as
    (v & p1 & _ & _ & _ & _ & _ & _ & _ & _ & _ & _ & _ & _ & Ht0 & Hpr0).
  fold timeout in Hd.
  exists prog, e0, sc0, rows, sdone, sinfo, sc.
  split; [exact Ha|]. split; [exact Ho|]. split; [exact Hrows|]. cbn zeta.
  split; [exact Hs|]. split; [exact Ht0|]. split; [exact Hpr0|].
  split; [exact Ht|]. split; [exact Hd|]. split; [|split].
  - intros Hto. rewrite Hd, Hto. reflexivity.
  - intros Hto. rewrite Hd, Hto. reflexivity.
  - intros k Hk. rewrite Hi. apply dict_get_set_other, Hk.
Qed.

(** C6, as amended.  On a path of length zero, on which the closest-point
    arclength that the path reports lies between 0 and the path length, the
    progress of a step is 0 in either branch of the switch.  The fraction of
    line 188 is the quotient of that progress by the path length, an
    unguarded division of zero by zero.  Every step that returns has gone
    through it; and a step that gets to it raises [ZeroDivisionError] when
    both operands are plain Python numbers, with the observation already
    recorded and the step counter not moved, and otherwise returns with a
    NaN under ["progress"]. *)
Theorem zero_length_path_progress a e v0 p d q ca :
  vessel e = Some v0 -> path e = Some p ->
  (path_length p =? 0) = true ->
  let v := vessel_step v0 a in
  get_closest_point_distance p (position v) = (d, q, ca) ->
  (0 <=? ca) = true -> (ca <=? path_length p) = true ->
  let prog := progress (config e) p v (max_path_prog e) in
  let fraction := np_divide prog (path_length p) in
  (prog =? 0) = true /\ is_nan fraction = true /\
  (forall obs rw done info e',
     step a e = (Return (obs, rw, done, info), e') -> divides_by_zero a e) /\
  (divides_by_zero a e ->
   if prog_is_numpy a e || length_is_numpy p
   then exists obs rw done info,
          fst (step a e) = Return (obs, rw, done, info) /\
          dict_get info "progress" = Some (PyFloat fraction)
   else fst (step a e) = Raise ZeroDivisionError /\
        t_step (snd (step a e)) = t_step e /\
        exists rows obs, past_obs e = Some rows /\
          past_obs (snd (step a e)) = Some (rows ++ [obs])).
Proof.
  intros Hv Hp HL v Hc Hca0 HcaL prog fraction.
  assert (H0L : (0 <=? path_length p) = true)
    by (apply eqb_leb; rewrite eqb_sym; exact HL).
  assert (Hz : (prog =? 0) = true).
  { subst prog. unfold progress. rewrite Hc.
    destruct ((d <? max_closest_point_distance (config e))
              || (abs (princip (get_direction p ca - course v))
                    <? max_closest_point_heading_error (config e))).
    - apply leb_antisym_eqb; [|exact Hca0].
      exact (leb_trans _ _ _ HcaL (eqb_leb _ _ HL)).
    - destruct (py_min_max_clamped
                  (max_path_prog e +
                   np_cos (princip (get_direction p (max_path_prog e) - course v)) *
                   speed v * t_step_size (config e)) (path_length p) H0L)
        as (Hlo & Hhi & _).
      apply leb_antisym_eqb; [|exact Hlo].
      exact (leb_trans _ _ _ Hhi (eqb_leb _ _ HL)). }
  split; [exact Hz|]. split; [apply div_zero_by_zero; assumption|]. split.
  - intros obs rw done info e' H.
    destruct (step_return _ _ _ _ _ _ _ H) as
      (prog' & e0 & sc0 & rows & sdone & sinfo & sc & p' & Ha & Ho & Hn & Hrows & _ &
       Hp0 & _).
    pose proof (advance_return a e prog' e0 Ha) as
      (v1 & p1 & _ & Hp1 & _ & _ & _ & Hp0' & _).
    rewrite Hp in Hp1. injection Hp1 as <-.
    exists prog', e0, rows, p. rewrite Ho. cbn [fst]. repeat split; assumption.
  - intros (prog' & e1 & rows & p' & Ha & Hn & Hrows & Hp1 & _).
    pose proof (advance_return a e prog' e1 Ha) as
      (v1 & p1 & Hv1 & Hp1' & Hprog & _ & _ & Hp1'' & _ & _ & _ & _ & _ & Hpo & Ht & _).
    rewrite Hv in Hv1. injection Hv1 as <-. rewrite Hp in Hp1'. injection Hp1' as <-.
    fold v in Hprog. fold prog in Hprog. subst prog'.
    rewrite step_unfold, Ha. unfold conclude.
    destruct (observe e1) as [obs sc0]. cbn [fst] in Hn. rewrite Hn.
    cbn [past_obs set_scene]. rewrite Hrows.
    destruct (step_reward _) as [[[sdone srw] sinfo] sc]. cbn [path set_scene set_past_obs].
    rewrite Hp1''. rewrite (true_divide_zero _ _ _ _ HL).
    destruct (prog_is_numpy a e || length_is_numpy p).
    + eexists _, _, _, _. split; [reflexivity|]. apply dict_get_set.
    + cbn. split; [reflexivity|]. split; [exact Ht|].
      exists rows, obs. rewrite <- Hpo. split; [exact Hrows|reflexivity].
Qed.

End Termination.

(** ** The sensor fan *)

Section SensorFan.

Local Open Scope float_scope.

(** Every fan of at most 256 sensors passes the five checks, by
    evaluation. *)
Lemma fans_checked_upto_256 :
  forallb (fun n => fan_in_arc n && fan_increasing n && fan_spaced n
                    && fan_symmetric n && fan_fills_arc n) (seq 0 257) = true.
Proof. vm_compute. reflexivity. Qed.

Lemma fan_checked n :
  (n <= 256)%nat ->
  fan_in_arc n = true /\ fan_increasing n = true /\ fan_spaced n = true /\
  fan_symmetric n = true /\ fan_fills_arc n = true.
Proof.
  intros Hn. pose proof fans_checked_upto_256 as H.
  rewrite forallb_forall in H.
  assert (Hin : In n (seq 0 257)) by (apply in_seq; lia).
  specialize (H _ Hin). rewrite !andb_true_iff in H. tauto.
Qed.


(** The comparison [<?] of binary64 values is transitive. *)
Lemma ltb_trans x y z : (x <? y) = true -> (y <? z) = true -> (x <? z) = true.
Proof. intros H1 H2. exact (ltb_leb_trans _ _ _ H1 (ltb_leb _ _ H2)). Qed.

Lemma fan_increasing_lt n i j :
  fan_increasing n = true -> (i < j)%nat -> (j < n)%nat ->
  (sensor_angle n i <? sensor_angle n j) = true.
Proof.
  intros H Hij Hj. unfold fan_increasing in H. rewrite forallb_forall in H.
  induction j as [|j IH]; [lia|].
  assert (Hstep : (sensor_angle n j <? sensor_angle n (S j)) = true)
    by (apply H, in_seq; lia).
  destruct (Nat.eq_dec i j) as [->|Hne]; [exact Hstep|].
  apply (ltb_trans _ (sensor_angle n j)); [apply IH; lia|exact Hstep].
Qed.

Lemma map_seq_sorted (R : float -> float -> Prop) (f : nat -> float) len :
  forall start,
  (forall i j, (start <= i)%nat -> (i < j)%nat -> (j < start + len)%nat ->
               R (f i) (f j)) ->
  StronglySorted R (map f (seq start len)).
Proof.
  induction len as [|len IH]; intros start Hf; cbn.
  - constructor.
  - constructor.
    + apply IH. intros i j Hi Hij Hj. apply Hf; lia.
    + apply Forall_forall. intros x Hx. apply in_map_iff in Hx.
      destruct Hx as (i & <- & Hi). apply in_seq in Hi. apply Hf; lia.
Qed.

(** X12.  For every fan of at most 256 sensors, the sensor angles as line 86
    computes them are listed in strictly increasing order; in particular no
    two sensors share an angle. *)
Theorem sensor_angles_increasing cfg :
  (nsensors cfg <= 256)%nat ->
  StronglySorted (fun x y => (x <? y) = true) (sensor_angles cfg) /\
  NoDup (sensor_angles cfg).
Proof.
  intros Hn. destruct (fan_checked _ Hn) as (_ & Hinc & _).
  assert (Hs : StronglySorted (fun x y => (x <? y) = true) (sensor_angles cfg)).
  { unfold sensor_angles. apply map_seq_sorted.
    intros i j _ Hij Hj. apply fan_increasing_lt; [exact Hinc|exact Hij|lia]. }
  split; [exact Hs|].
  induction Hs as [|x l Hl IH Hx]; constructor; [|exact IH].
  intros Hin. rewrite Forall_forall in Hx. specialize (Hx x Hin).
  rewrite (ltb_antisym _ _ Hx) in Hx. discriminate.
Qed.

End SensorFan.

(** ** The observation space *)

Section ObservationSpace.

Lemma observation_space_eq cfg :
  observation_space cfg =
  Some (mkBox ([-1; -1; -1; -1; -1; -1; -10000] ++ repeat (-1) (n_sectors cfg * 2))
              ([1; 1; 1; 1; 1; 1; 10000] ++ repeat 1 (n_sectors cfg * 2)))%Z.
Proof. reflexivity. Qed.

Lemma nth_error_seven {A : Type} (a0 a1 a2 a3 a4 a5 a6 x : A) k i :
  (i < 7 + k)%nat ->
  nth_error ([a0; a1; a2; a3; a4; a5; a6] ++ repeat x k) i =
  Some (nth i [a0; a1; a2; a3; a4; a5; a6] x).
Proof.
  intros Hi.
  do 7 (destruct i as [|i]; [reflexivity|]).
  cbn. rewrite nth_error_repeat by lia. destruct i; reflexivity.
Qed.

(** C8, as amended.  The declared observation space has
    [7 + 2 * n_sectors] elements; every element is bounded by [-1] and [1],
    except the element at index [nstates - 1 = 6], the last of the seven state
    features, whose bounds are [-10000] and [10000]. *)
Theorem observation_space_bounds cfg :
  nobservations cfg = (7 + 2 * n_sectors cfg)%nat /\
  extended_slot_is cfg (nstates - 1) /\
  exists b, observation_space cfg = Some b /\
    List.length (low b) = nobservations cfg /\
    List.length (high b) = nobservations cfg.
Proof.
  split; [unfold nobservations, nstates; lia|]. split.
  - eexists. split; [apply observation_space_eq|].
    intros i Hi. unfold nobservations, nstates in Hi.
    unfold bounds_at. cbn [low high].
    rewrite !nth_error_seven by exact Hi.
    do 7 (destruct i as [|i]; [reflexivity|]).
    cbn. destruct i; reflexivity.
  - eexists. split; [apply observation_space_eq|]. cbn [low high].
    rewrite !length_app, !repeat_length. unfold nobservations, nstates. cbn. lia.
Qed.

End ObservationSpace.

(** ** Concrete runs of the toy scenario *)

Section Runs.

Local Open Scope float_scope.

Lemma toy_start_in_episode : @in_episode ToyWorld toy_quiet toy_start.
Proof. apply reachable_in_episode. exact (reach_init (toy_config 1 5)). Qed.

(** The calls that the runs below start from, evaluated. *)
Lemma toy_collide_step :
  @step ToyWorld toy_collide (1, 0) toy_collide_start
  = (Return ([1; 0; 1; 2], -1000, true,
             [("collision"%string, PyBool true);
              ("progress"%string, PyFloat (np_divide 1 100))]),
     snd (@step ToyWorld toy_collide (1, 0) toy_collide_start)).
Proof. vm_compute. reflexivity. Qed.

Lemma toy_limit0_step :
  @step ToyWorld toy_quiet (1, 0) toy_limit0_start
  = (Return ([1; 0; 1; 2], 0, true, [("progress"%string, PyFloat (np_divide 1 100))]),
     snd (@step ToyWorld toy_quiet (1, 0) toy_limit0_start)).
Proof. vm_compute. reflexivity. Qed.

Lemma toy_east_step :
  @step ToyWorld toy_east (3, nan) toy_east_start
  = (Raise (AssertionError [nan; 3; 0; 3; 4]),
     snd (@step ToyWorld toy_east (3, nan) toy_east_start)).
Proof. vm_compute. reflexivity. Qed.

(** On the two paths of length zero, the first step gets to line 188. *)
Lemma toy_flat_divides : @divides_by_zero ToyWorld toy_flat (3, 0) toy_flat_start.
Proof.
  exists 0, (snd (@advance ToyWorld (3, 0) toy_flat_start)), [[0; 0; 0; 0]], 0.
  vm_compute. repeat split; reflexivity.
Qed.

Lemma numpy_toy_flat_divides :
  @divides_by_zero NumpyToyWorld numpy_toy_flat (3, 0) numpy_toy_flat_start.
Proof.
  exists 0, (snd (@advance NumpyToyWorld (3, 0) numpy_toy_flat_start)), [[0; 0; 0; 0]], 0.
  vm_compute. repeat split; reflexivity.
Qed.

(** C1 at two inputs.  From the start of the toy episode the action [(3, 0)]
    leaves the vessel on the path, and the progress is the closest-point
    arclength 3; with both thresholds at zero the same action gives the
    forward projection, 3 as well, and the action [(300, 0)] gives a
    projection of 300 that is clamped to the path length 100. *)
Lemma step_progress_dual_criterion_witness :
  (exists prog,
     path_prog (snd (@step ToyWorld toy_quiet (3, 0) toy_start))
       = Some (np_append (path_prog toy_start) prog) /\ prog = 3) /\
  (exists prog,
     path_prog (snd (@step ToyWorld toy_quiet (300, 0) toy_strict_start))
       = Some (np_append (path_prog toy_strict_start) prog) /\
     prog = py_min (py_max 0 (0 + (1 - 0 * 0 / 2) * 300 * 1)) 100 /\
     clamped 300 0 100 prog).
Proof.
  split.
  - destruct (@step_progress_dual_criterion ToyWorld toy_quiet (3, 0) toy_start
                (mkToyVessel (0, 0) 0 0) 100 0 (3, 0) 3 eq_refl eq_refl eq_refl)
      as (prog & Hpp & Hclose & _).
    exists prog. split; [exact Hpp|]. apply Hclose. left. reflexivity.
  - destruct (@step_progress_dual_criterion ToyWorld toy_quiet (300, 0)
                toy_strict_start (mkToyVessel (0, 0) 0 0) 100 0 (100, 0) 100
                eq_refl eq_refl eq_refl)
      as (prog & Hpp & _ & Hfar).
    exists prog. split; [exact Hpp|].
    destruct (Hfar eq_refl eq_refl) as [Hprog Hclamp].
    split; [exact Hprog|]. exact (Hclamp eq_refl).
Defined.

(** C2 on the toy episode: a step and a run of two steps from its start. *)
Lemma max_path_prog_nondecreasing_witness :
  (max_path_prog toy_start
     <=? max_path_prog (snd (@step ToyWorld toy_quiet (3, 0) toy_start))) = true /\
  (max_path_prog (@steps ToyWorld toy_quiet [(3, 0)] toy_start)
     <=? max_path_prog (@steps ToyWorld toy_quiet ([(3, 0)] ++ [(-2, 0)]) toy_start))
  = true.
Proof.
  destruct (@max_path_prog_nondecreasing ToyWorld toy_quiet) as (_ & Hstep & Hrun).
  split.
  - exact (Hstep toy_start (3, 0) toy_start_in_episode).
  - exact (Hrun toy_start [(3, 0)] [(-2, 0)] toy_start_in_episode).
Defined.

(** C3 after a step: the target is 4, one ahead of the progress 3. *)
Lemma target_arclength_after_step_witness :
  @in_episode ToyWorld toy_quiet toy_start /\
  (0 <=? 100) = true /\ (0 <=? min_la_dist (config toy_start)) = true /\
  @target_ahead ToyWorld (snd (@step ToyWorld toy_quiet (3, 0) toy_start)) 100.
Proof.
  split; [exact toy_start_in_episode|]. split; [reflexivity|]. split; [reflexivity|].
  apply (@target_arclength_after_step ToyWorld toy_quiet (3, 0) toy_start 100).
  - exact toy_start_in_episode.
  - reflexivity.
  - reflexivity.
  - reflexivity.
  - intros x Hx. discriminate Hx.
Defined.

(** C3 fails right after [reset].  The object that the constructor returns
    has a path of length 100, [min_la_dist = 1], [max_path_prog = 0] and
    [target_arclength = 0]: the target is behind [max_path_prog + min_la_dist
    = 1], which does not exceed the path length. *)
Lemma reset_target_not_ahead :
  path toy_start = Some 100 /\
  target_arclength toy_start = 0 /\
  max_path_prog toy_start + min_la_dist (config toy_start) = 1 /\
  ~ @target_ahead ToyWorld toy_start 100.
Proof.
  split; [reflexivity|]. split; [reflexivity|]. split; [reflexivity|].
  unfold target_ahead. vm_compute. intros (_ & _ & H). discriminate H.
Qed.

(** The bound [min_la_dist >= 0] cannot be dropped from C3: the target is
    clamped from above only, and with [min_la_dist = -5] a step that makes no
    progress leaves it at -5. *)
Lemma negative_min_la_dist_target_below_zero :
  target_arclength (snd (@step ToyWorld toy_quiet (0, 0) toy_backward_start)) = -5 /\
  ~ @target_ahead ToyWorld (snd (@step ToyWorld toy_quiet (0, 0) toy_backward_start)) 100.
Proof.
  split; [reflexivity|].
  unfold target_ahead. vm_compute. intros (H & _). discriminate H.
Qed.

(** C4 on an observation with a NaN: the step stops with the vector in the
    assertion. *)
Lemma observation_nan_check_witness :
  fst (@step ToyWorld toy_quiet (nan, 0) toy_start)
  = Raise (AssertionError [nan; 0; 0; 1]).
Proof.
  destruct (@observation_nan_check ToyWorld toy_quiet) as (Hstep & _).
  exact (Hstep (nan, 0) toy_start 0
           (snd (@advance ToyWorld (nan, 0) toy_start)) eq_refl eq_refl).
Defined.

(** C4 fails on an infinite value.  The propeller input [infinity] makes the
    speed infinite; the observation holds it, the check lets it through, and
    [step] returns the vector. *)
Lemma step_returns_infinite_observation :
  fst (@step ToyWorld toy_quiet (infinity, 0) toy_start)
  = Return ([infinity; 0; 100; 100], 0, false, [("progress"%string, PyFloat 1)]) /\
  is_infinity infinity = true /\
  ~ @returns_finite ToyWorld toy_quiet (infinity, 0) toy_start.
Proof.
  split; [reflexivity|]. split; [reflexivity|].
  unfold returns_finite. vm_compute. discriminate.
Qed.

(** C5 at the step limit, with a shaper that does not end the episode: with
    a limit of 0 steps the first step reports the end, and the reward is the
    shaper's 0. *)
Lemma step_limit_checked_last_witness :
  fst (@step ToyWorld toy_quiet (1, 0) toy_limit0_start)
  = Return ([1; 0; 1; 2], 0, true, [("progress"%string, PyFloat (np_divide 1 100))]) /\
  (max_timestemps (config toy_limit0_start) <? t_step toy_limit0_start + 1)%Z = true /\
  exists e1 sinfo sc,
    @step_reward ToyWorld toy_quiet e1 = (false, 0, sinfo, sc) /\
    t_step e1 = t_step toy_limit0_start.
Proof.
  split; [rewrite toy_limit0_step; reflexivity|]. split; [reflexivity|].
  destruct (@step_limit_checked_last ToyWorld toy_quiet (1, 0) toy_limit0_start
              [1; 0; 1; 2] 0 true [("progress"%string, PyFloat (np_divide 1 100))]
              (snd (@step ToyWorld toy_quiet (1, 0) toy_limit0_start))
              toy_limit0_step)
    as (prog & e0 & sc0 & rows & sdone & sinfo & sc & _ & _ & _ & Hs & Ht & _).
  eexists _, sinfo, sc. split; [|exact Ht].
  rewrite Hs. cbn in Hs. injection Hs as <- _ _. reflexivity.
Defined.

(** C5 fails as a rule of precedence.  With a limit of 0 steps the first
    step exceeds the limit, which comes first in the order; yet what the step
    returns is decided by the shaper as well: with the shaper that reports a
    collision it carries the penalty and the collision entry, with the quiet
    shaper it does not. *)
Lemma limit_does_not_preempt_shaper :
  same_world toy_quiet toy_collide /\
  (max_timestemps (config toy_collide_start) <? t_step toy_collide_start + 1)%Z = true /\
  fst (@step ToyWorld toy_quiet (1, 0) toy_collide_start)
  = Return ([1; 0; 1; 2], 0, true, [("progress"%string, PyFloat (np_divide 1 100))]) /\
  fst (@step ToyWorld toy_collide (1, 0) toy_collide_start)
  = Return ([1; 0; 1; 2], -1000, true,
            [("collision"%string, PyBool true);
             ("progress"%string, PyFloat (np_divide 1 100))]) /\
  ~ limit_wins toy_quiet toy_collide (1, 0) toy_collide_start.
Proof.
  assert (Hq : fst (@step ToyWorld toy_quiet (1, 0) toy_collide_start)
               = Return ([1; 0; 1; 2], 0, true,
                         [("progress"%string, PyFloat (np_divide 1 100))]))
    by (vm_compute; reflexivity).
  assert (Hc : fst (@step ToyWorld toy_collide (1, 0) toy_collide_start)
               = Return ([1; 0; 1; 2], -1000, true,
                         [("collision"%string, PyBool true);
                          ("progress"%string, PyFloat (np_divide 1 100))]))
    by (rewrite toy_collide_step; reflexivity).
  split; [split; reflexivity|]. split; [reflexivity|].
  split; [exact Hq|]. split; [exact Hc|].
  intros H. unfold limit_wins in H. rewrite Hq, Hc in H.
  assert (Hto : (max_timestemps (config toy_collide_start)
                 <? t_step toy_collide_start + 1)%Z = true) by reflexivity.
  specialize (H Hto). discriminate H.
Qed.

(** C6 on the two paths of length zero: the progress of the first step is 0,
    as the closest-point arclength and as the clamped forward projection;
    with plain Python floats the step raises [ZeroDivisionError] and leaves
    the step counter where it was, with NumPy scalars it returns with the
    quotient under ["progress"]. *)
Lemma zero_length_path_progress_witness :
  (path_length (0 : @Path ToyWorld) =? 0) = true /\
  (@progress ToyWorld (config toy_flat_start) 0 (mkToyVessel (3, 0) 0 3)
     (max_path_prog toy_flat_start) =? 0) = true /\
  (@progress ToyWorld (config toy_flat_strict_start) 0 (mkToyVessel (3, 0) 0 3)
     (max_path_prog toy_flat_strict_start) =? 0) = true /\
  fst (@step ToyWorld toy_flat (3, 0) toy_flat_start) = Raise ZeroDivisionError /\
  t_step (snd (@step ToyWorld toy_flat (3, 0) toy_flat_start)) = t_step toy_flat_start /\
  exists obs rw done info,
    fst (@step NumpyToyWorld numpy_toy_flat (3, 0) numpy_toy_flat_start)
    = Return (obs, rw, done, info) /\
    dict_get info "progress" =
    Some (PyFloat (np_divide
                     (@progress NumpyToyWorld (config numpy_toy_flat_start) 0
                        (mkToyVessel (3, 0) 0 3) (max_path_prog numpy_toy_flat_start))
                     0)).
Proof.
  destruct (@zero_length_path_progress ToyWorld toy_flat (3, 0) toy_flat_start
              (mkToyVessel (0, 0) 0 0) 0 0 (0, 0) 0
              eq_refl eq_refl eq_refl eq_refl eq_refl eq_refl)
    as (Hz & _ & _ & Hpy).
  specialize (Hpy toy_flat_divides).
  assert (Ek : @prog_is_numpy ToyWorld (3, 0) toy_flat_start
               || @length_is_numpy ToyWorld 0 = false) by (vm_compute; reflexivity).
  rewrite Ek in Hpy. destruct Hpy as (Hraise & Ht & _).
  destruct (@zero_length_path_progress NumpyToyWorld numpy_toy_flat (3, 0)
              numpy_toy_flat_start (mkToyVessel (0, 0) 0 0) 0 0 (0, 0) 0
              eq_refl eq_refl eq_refl eq_refl eq_refl eq_refl)
    as (_ & _ & _ & Hnp).
  specialize (Hnp numpy_toy_flat_divides).
  assert (En : @prog_is_numpy NumpyToyWorld (3, 0) numpy_toy_flat_start
               || @length_is_numpy NumpyToyWorld 0 = true) by (vm_compute; reflexivity).
  rewrite En in Hnp.
  destruct (@zero_length_path_progress ToyWorld toy_flat (3, 0) toy_flat_strict_start
              (mkToyVessel (0, 0) 0 0) 0 0 (0, 0) 0
              eq_refl eq_refl eq_refl eq_refl eq_refl eq_refl)
    as (Hzf & _).
  split; [reflexivity|]. split; [exact Hz|]. split; [exact Hzf|].
  split; [exact Hraise|]. split; [exact Ht|exact Hnp].
Defined.

(** C6 fails on a path of length zero, and on a path whose length is not a
    number.  On the path of length zero the first step gets to line 188 and
    divides by zero: with plain Python floats it raises [ZeroDivisionError],
    with NumPy scalars it returns and stores the NaN of [0/0].  On a path
    whose length is a NaN, the step returns with a progress of 3, not 0. *)
Lemma step_divides_by_zero :
  @divides_by_zero ToyWorld toy_flat (3, 0) toy_flat_start /\
  fst (@step ToyWorld toy_flat (3, 0) toy_flat_start) = Raise ZeroDivisionError /\
  @divides_by_zero NumpyToyWorld numpy_toy_flat (3, 0) numpy_toy_flat_start /\
  fst (@step NumpyToyWorld numpy_toy_flat (3, 0) numpy_toy_flat_start)
  = Return ([3; 0; 0; 0], 0, false, [("progress"%string, PyFloat (np_divide 0 0))]) /\
  is_nan (np_divide 0 0) = true /\
  path toy_nan_length_start = Some nan /\
  fst (@step ToyWorld toy_nan_length (3, 0) toy_nan_length_start)
  = Return ([3; 0; 3; 4], 0, false, [("progress"%string, PyFloat (np_divide 3 nan))]) /\
  path_prog (snd (@step ToyWorld toy_nan_length (3, 0) toy_nan_length_start))
  = Some [None; Some 3] /\
  (3 =? 0) = false.
Proof.
  split; [exact toy_flat_divides|]. split; [vm_compute; reflexivity|].
  split; [exact numpy_toy_flat_divides|].
  repeat split; vm_compute; reflexivity.
Qed.



(** C8 fails at the second slot: with two sectors the declared bounds of the
    element at index 1 are [-1] and [1]; the wide bounds are at index 6. *)
Lemma second_slot_not_extended :
  (exists b, observation_space (toy_config 1 5) = Some b /\
     bounds_at b 1 = Some (-1, 1)%Z /\ bounds_at b 6 = Some (-10000, 10000)%Z) /\
  ~ extended_slot_is (toy_config 1 5) 1.
Proof.
  split.
  - eexists. split; [reflexivity|]. split; reflexivity.
  - intros (b & Hb & H). vm_compute in Hb. injection Hb as <-.
    specialize (H 1%nat). vm_compute in H.
    assert (Hlt : (2 <= 11)%nat) by lia.
    specialize (H Hlt). discriminate H.
Qed.

(** C8 on the toy configuration: eleven elements, the wide one at index 6. *)
Lemma observation_space_bounds_witness :
  nobservations (toy_config 1 5) = 11%nat /\ extended_slot_is (toy_config 1 5) 6.
Proof.
  destruct (observation_space_bounds (toy_config 1 5)) as (Hn & Hslot & _).
  split; [exact Hn|exact Hslot].
Defined.

(** C9 on the toy episode: after two steps that return, three rows. *)
Lemma past_actions_history_witness :
  past_actions (@steps ToyWorld toy_quiet [(3, 0); (2, 0)] toy_start)
  = [(0, 0); (3, 0); (2, 0)] /\
  t_step (@steps ToyWorld toy_quiet [(3, 0); (2, 0)] toy_start) = 2%Z.
Proof.
  destruct (@past_actions_history ToyWorld toy_quiet) as (_ & _ & Hrun).
  destruct (Hrun (blank (toy_config 1 5)) None [(3, 0); (2, 0)] eq_refl)
    as (Hrows & _ & Hcount).
  split; [exact Hrows|]. exact (proj1 (Hcount eq_refl)).
Defined.

(** C10 on a step that makes progress and whose observation holds a NaN: the
    vessel drifts to an east coordinate that is not a number.  The step
    aborts, and the object has the action in its history, the vessel moved,
    the best progress raised from 0 to 3, the progress history started and
    the target moved from 0 to 4. *)
Lemma step_not_atomic_witness :
  exists e',
    @step ToyWorld toy_east (3, nan) toy_east_start
    = (Raise (AssertionError [nan; 3; 0; 3; 4]), e') /\
    past_actions e' = [(0, 0); (3, nan)] /\
    vessel e' = Some (mkToyVessel (3, nan) 0 3) /\
    max_path_prog toy_east_start = 0 /\ max_path_prog e' = 3 /\
    path_prog toy_east_start = None /\ path_prog e' = Some [None; Some 3] /\
    target_arclength toy_east_start = 0 /\ target_arclength e' = 4 /\
    past_obs e' = past_obs toy_east_start /\ t_step e' = t_step toy_east_start /\
    e' <> toy_east_start.
Proof.
  exists (snd (@step ToyWorld toy_east (3, nan) toy_east_start)).
  destruct (@step_not_atomic ToyWorld toy_east (3, nan) toy_east_start
              [nan; 3; 0; 3; 4]
              (snd (@step ToyWorld toy_east (3, nan) toy_east_start)) toy_east_step)
    as (v & p & Hv & Hp & Hrows & Hv' & Hm & Hpp & Ht & _ & Hpo & Hts & Hne).
  assert (Ev : v = mkToyVessel (0, 0) 0 0) by (vm_compute in Hv; congruence).
  assert (Ep : p = 100) by (vm_compute in Hp; congruence).
  subst v p.
  split; [exact toy_east_step|]. split; [exact Hrows|]. split; [exact Hv'|].
  split; [reflexivity|]. split; [rewrite Hm; vm_compute; reflexivity|].
  split; [reflexivity|]. split; [rewrite Hpp; vm_compute; reflexivity|].
  split; [reflexivity|]. split; [rewrite Ht; vm_compute; reflexivity|].
  split; [exact Hpo|]. split; [exact Hts|exact Hne].
Defined.

End Runs.

(** * Further properties of the episode *)

(** ** The bookkeeping of [step] and [reset] *)

Section MoreBookkeeping.

Context {C : Collaborators} {Sn : Scenario}.

Local Open Scope float_scope.

(** What a call to [step] does to the counters and the histories, by its
    outcome. *)
Lemma step_bookkeeping a e :
  episode (snd (step a e)) = episode e /\
  memory (snd (step a e)) = memory e /\
  match fst (step a e) with
  | Return (obs, rw, _, _) =>
      t_step (snd (step a e)) = (t_step e + 1)%Z /\
      total_t_steps (snd (step a e)) = (total_t_steps e + 1)%Z /\
      past_rewards (snd (step a e)) = past_rewards e ++ [rw] /\
      cumulative_reward (snd (step a e)) = cumulative_reward e + rw /\
      exists rows, past_obs e = Some rows /\
        past_obs (snd (step a e)) = Some (rows ++ [obs])
  | Raise x =>
      t_step (snd (step a e)) = t_step e /\
      total_t_steps (snd (step a e)) = total_t_steps e /\
      past_rewards (snd (step a e)) = past_rewards e /\
      cumulative_reward (snd (step a e)) = cumulative_reward e /\
      match x with
      | ZeroDivisionError =>
          exists rows obs, past_obs e = Some rows /\
            past_obs (snd (step a e)) = Some (rows ++ [obs])
      | _ => past_obs (snd (step a e)) = past_obs e
      end
  end.
Proof.
  unfold step, advance. cbn.
  destruct (vessel e) as [v|]; cbn; [|repeat split; reflexivity].
  destruct (path e) as [p|] eqn:Hp; cbn; [|repeat split; reflexivity].
  unfold conclude. cbn.
  destruct (observe _) as [obs sc]. cbn.
  destruct (np_isnan_any obs); cbn; [repeat split; reflexivity|].
  destruct (past_obs e) as [rows|] eqn:Hpo; cbn; [|repeat split; congruence].
  destruct (step_reward _) as [[[done rw] info] sc']. cbn. rewrite Hp. cbn.
  destruct (true_divide _ _ _ _) as [fr|x] eqn:Hd; cbn.
  - repeat split; try reflexivity. exists rows. split; congruence.
  - apply true_divide_raise in Hd. destruct Hd as (-> & _).
    repeat split; try reflexivity. exists rows, obs. split; reflexivity.
Qed.

(** What [reset] leaves once it is past the snapshot, by its outcome. *)
Lemma reset_bookkeeping e mem :
  snapshot e = Return mem ->
  cumulative_reward (snd (reset e)) = 0 /\
  past_rewards (snd (reset e)) = [] /\
  path_prog (snd (reset e)) = None /\
  total_t_steps (snd (reset e)) = total_t_steps e /\
  memory (snd (reset e)) = mem /\
  match fst (reset e) with
  | Return obs =>
      past_obs (snd (reset e)) = Some [obs] /\
      episode (snd (reset e)) = (episode e + 1)%Z
  | Raise x =>
      past_obs (snd (reset e)) = None /\
      episode (snd (reset e)) = episode e /\
      exists obs, x = AssertionError obs
  end.
Proof.
  intros Hs. unfold reset, regenerate. rewrite Hs.
  destruct (generate _) as [[v p] sc]. cbn.
  destruct (observe _) as [obs sc']. cbn.
  destruct (np_isnan_any obs); cbn; repeat split; try reflexivity.
  exists obs. reflexivity.
Qed.

End MoreBookkeeping.

(** ** Invariants of an episode *)

Section EpisodeInvariants.

Context {C : Collaborators} {Sn : Scenario}.

Local Open Scope float_scope.



(** X2.  Within an episode, [past_rewards] has exactly [t_step] entries: one
    per step that returned, none for a step that raised. *)
Theorem past_rewards_count e :
  in_episode e -> Z.of_nat (List.length (past_rewards e)) = t_step e.
Proof.
  induction 1 as [e mem Hs|a e He IH].
  - destruct (reset_bookkeeping e mem Hs) as (_ & -> & _).
    destruct (reset_fields e mem Hs) as (_ & _ & _ & _ & _ & -> & _). reflexivity.
  - destruct (step_bookkeeping a e) as (_ & _ & H).
    destruct (fst (step a e)) as [[[[obs rw] done] info]|x].
    + destruct H as (-> & _ & -> & _). rewrite length_app. cbn. lia.
    + destruct H as (-> & _ & -> & _). exact IH.
Qed.

Lemma steps_snoc acts a e : steps (acts ++ [a]) e = snd (step a (steps acts e)).
Proof. rewrite steps_app. reflexivity. Qed.

(** X3.  The progress history keeps one value per call to [step], also for a
    step whose observation check fails, behind a leading [None]: [reset]
    leaves [path_prog] at [None], and the first [np.append] turns that [None]
    into the first element. *)
Theorem path_prog_history e mem acts :
  snapshot e = Return mem ->
  exists progs,
    List.length progs = List.length acts /\
    path_prog (steps acts (snd (reset e))) =
    match progs with
    | [] => None
    | _ :: _ => Some (None :: map Some progs)
    end.
Proof.
  intros Hs. induction acts as [|a acts IH] using rev_ind.
  - exists []. split; [reflexivity|]. apply (reset_bookkeeping e mem Hs).
  - destruct IH as (progs & Hlen & Hpp). rewrite steps_snoc.
    pose proof (steps_in_episode acts _ (episode_start e mem Hs)) as He1.
    destruct (in_episode_inv _ He1) as ([v Hv] & [p Hp] & _).
    destruct (step_progress_fields a _ v p Hv Hp) as (_ & _ & _ & Hnew & _).
    set (prog := progress _ _ _ _) in Hnew.
    exists (progs ++ [prog]). split.
    + rewrite !length_app, Hlen. reflexivity.
    + rewrite Hnew, Hpp. destruct progs as [|x progs]; cbn; [reflexivity|].
      rewrite map_app. reflexivity.
Qed.

Lemma recorded_np_append pp x : recorded (Some (np_append pp x)) = recorded pp ++ [x].
Proof.
  destruct pp as [l|]; cbn; [|reflexivity].
  rewrite flat_map_app. cbn. reflexivity.
Qed.

(** X4.  Within an episode, [max_path_prog] is the running maximum of 0 and
    the progress values recorded in [path_prog]: it is not negative, no
    recorded number exceeds it, and it is 0 or one of the recorded values.
    Recorded NaNs are passed over. *)
Theorem max_path_prog_running_max e :
  in_episode e ->
  (0 <=? max_path_prog e) = true /\
  (forall x, In x (recorded (path_prog e)) -> is_nan x = false ->
             (x <=? max_path_prog e) = true) /\
  (max_path_prog e = 0 \/ In (max_path_prog e) (recorded (path_prog e))).
Proof.
  induction 1 as [e mem Hs|a e He IH].
  - destruct (reset_bookkeeping e mem Hs) as (_ & _ & -> & _).
    destruct (reset_fields e mem Hs) as (_ & _ & -> & _).
    split; [reflexivity|]. split; [intros x []|left; reflexivity].
  - destruct IH as (H0 & Hle & Hin).
    destruct (in_episode_inv e He) as ([v Hv] & [p Hp] & _).
    destruct (step_progress_fields a e v p Hv Hp) as (_ & _ & -> & -> & _).
    set (prog := progress _ _ _ _).
    pose proof (leb_not_nan_r _ _ H0) as Hmn.
    pose proof (update_max_path_prog_ge (max_path_prog e) prog Hmn) as Hge.
    rewrite recorded_np_append.
    split; [exact (leb_trans _ _ _ H0 Hge)|]. split.
    + intros x Hx Hxn. apply in_app_or in Hx. destruct Hx as [Hx|[<-|[]]].
      * exact (leb_trans _ _ _ (Hle x Hx Hxn) Hge).
      * unfold update_max_path_prog. destruct (max_path_prog e <? prog) eqn:E.
        -- apply leb_refl, Hxn.
        -- apply not_ltb_leb; assumption.
    + unfold update_max_path_prog. destruct (max_path_prog e <? prog).
      * right. apply in_or_app. right. left. reflexivity.
      * destruct Hin as [Hin|Hin]; [left; exact Hin|].
        right. apply in_or_app. left. exact Hin.
Qed.

Lemma steps_config acts e : config (steps acts e) = config e.
Proof.
  revert e. induction acts as [|a acts IH]; intros e; cbn; [reflexivity|].
  rewrite IH. apply step_config.
Qed.

Lemma step_count a e :
  t_step (snd (step a e)) =
    (t_step e + Z.of_nat (if returned (fst (step a e)) then 1 else 0))%Z /\
  total_t_steps (snd (step a e)) =
    (total_t_steps e + Z.of_nat (if returned (fst (step a e)) then 1 else 0))%Z.
Proof.
  destruct (step_bookkeeping a e) as (_ & _ & H).
  destruct (fst (step a e)) as [[[[obs rw] done] info]|x]; cbn [returned].
  - destruct H as (-> & -> & _). split; reflexivity.
  - destruct H as (-> & -> & _). split; lia.
Qed.

Lemma steps_count acts : forall e,
  t_step (steps acts e) = (t_step e + Z.of_nat (count_returned acts e))%Z /\
  total_t_steps (steps acts e)
    = (total_t_steps e + Z.of_nat (count_returned acts e))%Z.
Proof.
  induction acts as [|a acts IH]; intros e; cbn [steps count_returned].
  - split; lia.
  - destruct (IH (snd (step a e))) as [-> ->].
    destruct (step_count a e) as [-> ->]. split; lia.
Qed.

Lemma reachable_counters e :
  reachable e -> (0 <= t_step e <= total_t_steps e)%Z.
Proof.
  induction 1 as [cfg|e Hr IH|a e Hr IH].
  - assert (Hs : snapshot (blank cfg) = Return None) by reflexivity.
    destruct (reset_fields _ _ Hs) as (_ & _ & _ & _ & _ & Ht & _).
    destruct (reset_bookkeeping _ _ Hs) as (_ & _ & _ & Htot & _).
    unfold init. rewrite Ht, Htot. cbn. lia.
  - destruct (in_episode_inv e (reachable_in_episode e Hr)) as (Hv & Hp & _).
    destruct (snapshot_return e Hv Hp) as [mem Hs].
    destruct (reset_fields _ _ Hs) as (_ & _ & _ & _ & _ & Ht & _).
    destruct (reset_bookkeeping _ _ Hs) as (_ & _ & _ & Htot & _).
    rewrite Ht, Htot. lia.
  - destruct (step_count a e) as [-> ->].
    destruct (returned (fst (step a e))); lia.
Qed.

(** X6.  The two step counters move together: over any run of steps each
    grows by the number of steps that returned, and a step that raises moves
    neither.  [reset] zeroes [t_step] and keeps [total_t_steps], so on every
    object built by the constructor and driven by [reset] and [step],
    [0 <= t_step <= total_t_steps]. *)
Theorem step_counters :
  (forall acts e,
     t_step (steps acts e) = (t_step e + Z.of_nat (count_returned acts e))%Z /\
     total_t_steps (steps acts e)
       = (total_t_steps e + Z.of_nat (count_returned acts e))%Z) /\
  (forall e, reachable e -> (0 <= t_step e <= total_t_steps e)%Z).
Proof.
  split; [intros acts e; apply steps_count|exact reachable_counters].
Qed.

(** X7.  The step limit is sticky: once [t_step] has reached
    [max_timestemps], every later step of the episode that returns reports
    [done = True], however many further steps are taken and whatever the
    reward shaper decides. *)
Theorem step_limit_persists e acts a obs rw done info e' :
  (max_timestemps (config e) <= t_step e)%Z ->
  step a (steps acts e) = (Return (obs, rw, done, info), e') ->
  done = true.
Proof.
  intros Hmax H.
  destruct (step_return _ _ _ _ _ _ _ H) as
    (prog & e0 & sc0 & rows & sdone & sinfo & sc & p & _ & _ & _ & _ & _ & _ &
     Hd & _).
  rewrite Hd, steps_config.
  destruct (steps_count acts e) as [Ht _]. rewrite Ht.
  replace (max_timestemps (config e) <? _)%Z with true; [reflexivity|].
  symmetry. apply Z.ltb_lt. lia.
Qed.

Lemma steps_memory acts e : memory (steps acts e) = memory e.
Proof.
  revert e. induction acts as [|a acts IH]; intros e; cbn; [reflexivity|].
  rewrite IH. apply (step_bookkeeping a e).
Qed.

(** X8.  The memory kept for plotting is written by [reset] only, and only
    after an episode in which a step returned: it then holds the sampled path
    and the vessel track of the episode that just ended.  A [reset] that
    follows an episode without a returned step keeps the earlier memory, and
    no step and no extension point changes it. *)
Theorem reset_memory :
  (forall e v p, vessel e = Some v -> path e = Some p ->
     memory (snd (reset e)) =
     if (0 <? t_step e)%Z
     then Some (path_linspace p 0 (s_max p) 1000, path_taken v)
     else memory e) /\
  (forall acts e, memory (steps acts e) = memory e).
Proof.
  split; [|exact steps_memory].
  intros e v p Hv Hp.
  assert (Hs : snapshot e =
               Return (if (0 <? t_step e)%Z
                       then Some (path_linspace p 0 (s_max p) 1000, path_taken v)
                       else memory e)).
  { unfold snapshot. rewrite Hv, Hp. destruct (0 <? t_step e)%Z; reflexivity. }
  destruct (reset_bookkeeping _ _ Hs) as (_ & _ & _ & _ & Hm & _). exact Hm.
Qed.



Lemma reset_return_snapshot e obs e0 :
  reset e = (Return obs, e0) -> exists mem, snapshot e = Return mem.
Proof.
  unfold reset, regenerate. destruct (snapshot e) as [mem|x]; [eauto|discriminate].
Qed.

Lemma steps_observed acts : forall e rows0,
  in_episode e -> past_obs e = Some rows0 ->
  exists rows,
    past_obs (steps acts e) = Some (rows0 ++ rows) /\
    List.length rows = count_observed acts e.
Proof.
  induction acts as [|a acts IH]; intros e rows0 He Hrows0; cbn [steps count_observed].
  - exists []. rewrite app_nil_r. split; [exact Hrows0|reflexivity].
  - destruct (step_bookkeeping a e) as (_ & _ & H).
    pose proof (episode_step a e He) as He'.
    destruct (fst (step a e)) as [[[[obs rw] done] info]|x]; cbn [observed].
    + destruct H as (_ & _ & _ & _ & rows' & Hrows' & Hnew).
      rewrite Hrows0 in Hrows'. injection Hrows' as <-.
      destruct (IH _ _ He' Hnew) as (rows & Hr & Hlen).
      exists (obs :: rows). rewrite Hr, <- app_assoc. cbn. split; [reflexivity|lia].
    + destruct H as (_ & _ & _ & _ & H).
      destruct x as [o| | |]; cbn [observed];
        try (rewrite <- H in Hrows0; destruct (IH _ _ He' Hrows0) as (rows & Hr & Hlen);
             exists rows; split; [exact Hr|exact Hlen]).
      destruct H as (rows' & obs & Hrows' & Hnew).
      rewrite Hrows0 in Hrows'. injection Hrows' as <-.
      destruct (IH _ _ He' Hnew) as (rows & Hr & Hlen).
      exists (obs :: rows). rewrite Hr, <- app_assoc. cbn. split; [reflexivity|lia].
Qed.

Lemma count_returned_le_observed acts : forall e,
  (count_returned acts e <= count_observed acts e)%nat.
Proof.
  induction acts as [|a acts IH]; intros e; cbn [count_returned count_observed]; [lia|].
  specialize (IH (snd (step a e))).
  destruct (fst (step a e)) as [r|[o| | |]]; cbn [returned observed]; lia.
Qed.

(** X10.  After a [reset] that returned the observation [obs0], the
    observation history always starts with [obs0] and holds one further row
    per step that got past line 186: one per step that returned, and one per
    step that stopped at the division of line 188, which comes after the
    observation is recorded.  [t_step] counts the steps that returned, so
    the history holds at least [t_step] rows behind [obs0]; the observation a
    step returns is the row it has just appended. *)
Theorem past_obs_history e obs0 e0 acts :
  reset e = (Return obs0, e0) ->
  exists rows,
    past_obs (steps acts e0) = Some (obs0 :: rows) /\
    List.length rows = count_observed acts e0 /\
    t_step (steps acts e0) = Z.of_nat (count_returned acts e0) /\
    (t_step (steps acts e0) <= Z.of_nat (List.length rows))%Z /\
    forall a obs rw done info e',
      step a (steps acts e0) = (Return (obs, rw, done, info), e') ->
      past_obs e' = Some (obs0 :: rows ++ [obs]).
Proof.
  intros Hr. destruct (reset_return_snapshot _ _ _ Hr) as [mem Hs].
  assert (He0 : e0 = snd (reset e)) by (rewrite Hr; reflexivity).
  assert (Hin : in_episode e0) by (rewrite He0; exact (episode_start e mem Hs)).
  assert (Hbase : past_obs e0 = Some [obs0] /\ t_step e0 = 0%Z).
  { destruct (reset_bookkeeping _ _ Hs) as (_ & _ & _ & _ & _ & H).
    destruct (reset_fields _ _ Hs) as (_ & _ & _ & _ & _ & Ht & _).
    rewrite Hr in H. cbn [fst snd] in H. rewrite Hr in Ht. cbn [snd] in Ht.
    destruct H as [H _]. split; assumption. }
  destruct Hbase as [Hpo Ht0].
  destruct (steps_observed acts e0 [obs0] Hin Hpo) as (rows & Hrows & Hlen).
  cbn [app] in Hrows. exists rows.
  destruct (steps_count acts e0) as [Ht _]. rewrite Ht0 in Ht. cbn in Ht.
  split; [exact Hrows|]. split; [exact Hlen|]. split; [exact Ht|]. split.
  - rewrite Ht, Hlen. pose proof (count_returned_le_observed acts e0). lia.
  - intros a obs rw done info e' H.
    destruct (step_bookkeeping a (steps acts e0)) as (_ & _ & Hb).
    rewrite H in Hb. cbn [fst snd] in Hb.
    destruct Hb as (_ & _ & _ & _ & rows' & Hrows' & Hnew).
    rewrite Hrows in Hrows'. injection Hrows' as <-. exact Hnew.
Qed.

Lemma py_min_max_not_nan x len : is_nan (py_min (py_max 0 x) len) = false.
Proof.
  unfold py_min, py_max.
  assert (Hm : is_nan (if 0 <? x then x else 0) = false).
  { destruct (0 <? x) eqn:E; [exact (ltb_not_nan_r _ _ E)|reflexivity]. }
  destruct (len <? (if 0 <? x then x else 0)) eqn:E.
  - exact (ltb_not_nan_l _ _ E).
  - exact Hm.
Qed.

(** X11.  A NaN can enter the progress only through the path.  When the
    closest-point arclength that the path reports is a number, or when
    neither criterion is met, the progress value is not a NaN: the forward
    projection never yields one, whatever the speed, the course, the step
    size or the path length are. *)
Theorem progress_not_nan cfg p v mpp d q ca :
  get_closest_point_distance p (position v) = (d, q, ca) ->
  is_nan ca = false \/
  ((d <? max_closest_point_distance cfg) = false /\
   (abs (princip (get_direction p ca - course v))
      <? max_closest_point_heading_error cfg) = false) ->
  is_nan (progress cfg p v mpp) = false.
Proof.
  intros Hc H. unfold progress. rewrite Hc.
  destruct ((d <? max_closest_point_distance cfg)
            || (abs (princip (get_direction p ca - course v))
                  <? max_closest_point_heading_error cfg)) eqn:E.
  - destruct H as [H|[H1 H2]]; [exact H|].
    rewrite H1, H2 in E. discriminate.
  - apply py_min_max_not_nan.
Qed.

Lemma steps_episode acts e : episode (steps acts e) = episode e.
Proof.
  revert e. induction acts as [|a acts IH]; intros e; cbn; [reflexivity|].
  rewrite IH. apply (step_bookkeeping a e).
Qed.

(** X14.  The episode counter counts the resets that returned: a [reset]
    that returns adds one, a [reset] whose observation check fails adds
    nothing, and no step changes it. *)
Theorem episode_counter :
  (forall e mem, snapshot e = Return mem ->
     episode (snd (reset e)) =
     (episode e + (if returned (fst (reset e)) then 1 else 0))%Z) /\
  (forall acts e, episode (steps acts e) = episode e).
Proof.
  split; [|exact steps_episode].
  intros e mem Hs. destruct (reset_bookkeeping _ _ Hs) as (_ & _ & _ & _ & _ & H).
  destruct (fst (reset e)) as [obs|x]; cbn [returned].
  - apply H.
  - destruct H as (_ & -> & _). lia.
Qed.


(** X16.  [plot] has something to draw exactly when an earlier episode took
    a step that returned.  On every object built by the constructor and driven
    by [reset] and [step], the memory is still the empty one of [__init__]
    if and only if [total_t_steps = t_step]. *)
Theorem plot_inputs_iff e :
  reachable e -> (plot_inputs e = None <-> total_t_steps e = t_step e).
Proof.
  intros Hr.
  assert (H : (plot_inputs e = None /\ total_t_steps e = t_step e) \/
              (plot_inputs e <> None /\ (t_step e < total_t_steps e)%Z)).
  { unfold plot_inputs. induction Hr as [cfg|e Hr IH|a e Hr IH].
    - left. assert (Hs : snapshot (blank cfg) = Return None) by reflexivity.
      destruct (reset_fields _ _ Hs) as (_ & _ & _ & _ & _ & Ht & _).
      destruct (reset_bookkeeping _ _ Hs) as (_ & _ & _ & Htot & Hm & _).
      unfold init. rewrite Ht, Htot, Hm. split; reflexivity.
    - pose proof (reachable_counters e Hr) as Hc.
      destruct (in_episode_inv e (reachable_in_episode e Hr)) as ([v Hv] & [p Hp] & _).
      assert (Hs : snapshot e =
                   Return (if (0 <? t_step e)%Z
                           then Some (path_linspace p 0 (s_max p) 1000, path_taken v)
                           else memory e)).
      { unfold snapshot. rewrite Hv, Hp. destruct (0 <? t_step e)%Z; reflexivity. }
      destruct (reset_fields _ _ Hs) as (_ & _ & _ & _ & _ & Ht & _).
      destruct (reset_bookkeeping _ _ Hs) as (_ & _ & _ & Htot & Hm & _).
      rewrite Ht, Htot, Hm.
      destruct (0 <? t_step e)%Z eqn:E.
      + right. apply Z.ltb_lt in E. split; [discriminate|lia].
      + apply Z.ltb_ge in E. destruct IH as [[Hn Heq]|[Hn Hlt]].
        * left. split; [exact Hn|lia].
        * right. split; [exact Hn|lia].
    - destruct (step_bookkeeping a e) as (_ & Hm & _). rewrite Hm.
      destruct (step_count a e) as [-> ->].
      destruct IH as [[Hn Heq]|[Hn Hlt]]; [left|right]; split; try exact Hn; lia. }
  destruct H as [[Hn Heq]|[Hn Hlt]]; split; intros H'; try assumption;
    try contradiction; lia.
Qed.

End EpisodeInvariants.

(** ** The [info] entries *)

Section MoreStep.

Context {C : Collaborators} {Sn : Scenario}.

Local Open Scope float_scope.

(** X5.  The [info] map that [step] returns is the one the reward shaper
    built, with the key ["progress"] set to the quotient of the progress by
    the path length: a ["progress"] entry of the shaper is overwritten, and
    every other key reads as the shaper left it. *)
Theorem info_progress_entry a e obs rw done info e' :
  step a e = (Return (obs, rw, done, info), e') ->
  exists v p e1 sdone sinfo sc,
    vessel e = Some v /\ path e = Some p /\
    step_reward e1 = (sdone, rw, sinfo, sc) /\
    dict_get info "progress" =
      Some (PyFloat (np_divide
                       (progress (config e) p (vessel_step v a) (max_path_prog e))
                       (path_length p))) /\
    forall k, k <> "progress"%string -> dict_get info k = dict_get sinfo k.
Proof.
  intros H.
  destruct (step_return _ _ _ _ _ _ _ H) as
    (prog & e0 & sc0 & rows & sdone & sinfo & sc & p & Ha & _ & _ & _ & Hs & Hp0 &
     _ & Hi & _).
  destruct (advance_return a e prog e0 Ha) as
    (v & p1 & Hv & Hp & Hprog & _ & _ & Hp1 & _).
  rewrite Hp1 in Hp0. injection Hp0 as <-.
  exists v, p1, (set_past_obs (Some (rows ++ [obs])) (set_scene sc0 e0)), sdone, sinfo, sc.
  split; [exact Hv|]. split; [exact Hp|]. split; [exact Hs|].
  rewrite Hi, <- Hprog. split; [apply dict_get_set|].
  intros k Hk. apply dict_get_set_other, Hk.
Qed.

End MoreStep.


(** ** Concrete runs for the further properties *)

Section MoreRuns.

Local Open Scope float_scope.

Lemma toy_collide_start_in_episode : @in_episode ToyWorld toy_collide toy_collide_start.
Proof. apply reachable_in_episode. exact (reach_init (toy_config 1 0)). Qed.

Lemma toy_collide_run_in_episode : @in_episode ToyWorld toy_collide toy_collide_run.
Proof. apply steps_in_episode, toy_collide_start_in_episode. Qed.

Lemma toy_reset_returns :
  @reset ToyWorld toy_quiet (blank (toy_config 1 5)) = (Return [0; 0; 0; 0], toy_start).
Proof. vm_compute. reflexivity. Qed.

Lemma toy_flat_reset_returns :
  @reset ToyWorld toy_flat (blank (toy_config 1 5)) = (Return [0; 0; 0; 0], toy_flat_start).
Proof. vm_compute. reflexivity. Qed.

Lemma toy_second_episode_reachable : @reachable ToyWorld toy_quiet toy_second_episode.
Proof.
  exact (reach_reset _ (reach_step (3, 0) _ (reach_init (toy_config 1 5)))).
Qed.

Lemma toy_stepped_fields :
  vessel toy_stepped = Some (mkToyVessel (3, 0) 0 3) /\
  path toy_stepped = Some 100 /\
  (0 <? t_step toy_stepped)%Z = true /\ memory toy_stepped = None.
Proof. vm_compute. repeat split; reflexivity. Qed.

Lemma toy_limit1_late_step :
  @step ToyWorld toy_quiet (1, 0) (@steps ToyWorld toy_quiet [(1, 0)] toy_limit1_reached)
  = (Return ([1; 0; 3; 4], 0, true, [("progress"%string, PyFloat (np_divide 3 100))]),
     snd (@step ToyWorld toy_quiet (1, 0)
            (@steps ToyWorld toy_quiet [(1, 0)] toy_limit1_reached))).
Proof. vm_compute. reflexivity. Qed.



(** X2 on the same run. *)
Lemma past_rewards_count_witness :
  @in_episode ToyWorld toy_collide toy_collide_run /\
  Z.of_nat (List.length (past_rewards toy_collide_run)) = t_step toy_collide_run.
Proof.
  split; [exact toy_collide_run_in_episode|].
  exact (@past_rewards_count ToyWorld toy_collide toy_collide_run
           toy_collide_run_in_episode).
Defined.

(** X3 on two steps of the toy episode. *)
Lemma path_prog_history_witness :
  exists progs,
    List.length progs = 2%nat /\
    path_prog (@steps ToyWorld toy_quiet [(3, 0); (2, 0)] toy_start) =
    match progs with
    | [] => None
    | _ :: _ => Some (None :: map Some progs)
    end.
Proof.
  exact (@path_prog_history ToyWorld toy_quiet (blank (toy_config 1 5)) None
           [(3, 0); (2, 0)] eq_refl).
Defined.

(** X4 after a step forward and a step back. *)
Lemma max_path_prog_running_max_witness :
  @in_episode ToyWorld toy_quiet
    (@steps ToyWorld toy_quiet [(3, 0); (-2, 0)] toy_start) /\
  (0 <=? max_path_prog (@steps ToyWorld toy_quiet [(3, 0); (-2, 0)] toy_start)) = true.
Proof.
  assert (H : @in_episode ToyWorld toy_quiet
                (@steps ToyWorld toy_quiet [(3, 0); (-2, 0)] toy_start))
    by (apply steps_in_episode, toy_start_in_episode).
  split; [exact H|].
  exact (proj1 (@max_path_prog_running_max ToyWorld toy_quiet _ H)).
Defined.

(** X5 on the step whose shaper reports a collision. *)
Lemma info_progress_entry_witness :
  exists v p e1 sdone sinfo sc,
    vessel toy_collide_start = Some v /\ path toy_collide_start = Some p /\
    @step_reward ToyWorld toy_collide e1 = (sdone, -1000, sinfo, sc) /\
    dict_get [("collision"%string, PyBool true);
              ("progress"%string, PyFloat (np_divide 1 100))] "progress" =
      Some (PyFloat (np_divide
                       (@progress ToyWorld (config toy_collide_start) p
                          (vessel_step v (1, 0)) (max_path_prog toy_collide_start))
                       (path_length p))) /\
    forall k, k <> "progress"%string ->
      dict_get [("collision"%string, PyBool true);
                ("progress"%string, PyFloat (np_divide 1 100))] k = dict_get sinfo k.
Proof.
  exact (@info_progress_entry ToyWorld toy_collide (1, 0) toy_collide_start _ _ _ _ _
           toy_collide_step).
Defined.

(** X6 on a run in which one step of three raises, and in the second episode
    of the toy scenario after one step in each episode. *)
Lemma step_counters_witness :
  @count_returned ToyWorld toy_quiet [(3, 0); (nan, 0); (2, 0)] toy_start = 2%nat /\
  t_step (@steps ToyWorld toy_quiet [(3, 0); (nan, 0); (2, 0)] toy_start)
  = (t_step toy_start
     + Z.of_nat (@count_returned ToyWorld toy_quiet
                   [(3, 0); (nan, 0); (2, 0)]%float toy_start))%Z /\
  t_step (snd (@step ToyWorld toy_quiet (2, 0) toy_second_episode)) = 1%Z /\
  total_t_steps (snd (@step ToyWorld toy_quiet (2, 0) toy_second_episode)) = 2%Z /\
  (0 <= t_step (snd (@step ToyWorld toy_quiet (2, 0)%float toy_second_episode))
     <= total_t_steps (snd (@step ToyWorld toy_quiet (2, 0)%float toy_second_episode)))%Z.
Proof.
  destruct (@step_counters ToyWorld toy_quiet) as (Hrun & Hreach).
  split; [vm_compute; reflexivity|].
  split; [exact (proj1 (Hrun [(3, 0); (nan, 0); (2, 0)] toy_start))|].
  split; [vm_compute; reflexivity|]. split; [vm_compute; reflexivity|].
  exact (Hreach _ (reach_step (2, 0) _ toy_second_episode_reachable)).
Defined.

(** X7 with a limit of 1 step and the shaper that never ends the episode:
    the first step reaches the limit, and the third step still reports the
    end. *)
Lemma step_limit_persists_witness :
  (max_timestemps (config toy_limit1_reached) <= t_step toy_limit1_reached)%Z /\
  quiet_shaper toy_limit1_reached = (false, 0, []) /\
  exists obs rw done info e',
    @step ToyWorld toy_quiet (1, 0) (@steps ToyWorld toy_quiet [(1, 0)] toy_limit1_reached)
    = (Return (obs, rw, done, info), e') /\ done = true.
Proof.
  assert (H : (max_timestemps (config toy_limit1_reached)
               <= t_step toy_limit1_reached)%Z) by (vm_compute; discriminate).
  split; [exact H|]. split; [reflexivity|].
  eexists _, _, _, _, _. split; [exact toy_limit1_late_step|].
  exact (@step_limit_persists ToyWorld toy_quiet toy_limit1_reached [(1, 0)] (1, 0)
           _ _ _ _ _ H toy_limit1_late_step).
Defined.

(** X8 on the toy episode after a step that returned: the memory is empty
    before the [reset], holds the sampled path and the track after it, and
    is not touched by a step of the second episode. *)
Lemma reset_memory_witness :
  memory toy_stepped = None /\
  memory (snd (@reset ToyWorld toy_quiet toy_stepped))
  = Some ([(0, 0); (100, 0)], [(3, 0)]) /\
  memory (@steps ToyWorld toy_quiet [(2, 0)] toy_second_episode)
  = memory toy_second_episode.
Proof.
  destruct toy_stepped_fields as (Hv & Hp & Ht & Hm).
  destruct (@reset_memory ToyWorld toy_quiet) as (Hreset & Hsteps).
  split; [exact Hm|]. split.
  - rewrite (Hreset toy_stepped _ _ Hv Hp), Ht. reflexivity.
  - exact (Hsteps [(2%float, 0%float)] toy_second_episode).
Defined.


(** X10 on two runs: a step that returns followed by one whose observation
    check fails, which leave one row and [t_step = 1]; and, on the path of
    length zero, a step that stops at the division, which leaves one row and
    [t_step = 0]. *)
Lemma past_obs_history_witness :
  (exists rows,
     past_obs (@steps ToyWorld toy_quiet [(3, 0); (nan, 0)] toy_start)
     = Some ([0; 0; 0; 0] :: rows) /\
     List.length rows = 1%nat /\
     t_step (@steps ToyWorld toy_quiet [(3, 0); (nan, 0)] toy_start) = 1%Z) /\
  (exists rows,
     past_obs (@steps ToyWorld toy_flat [(3, 0)] toy_flat_start)
     = Some ([0; 0; 0; 0] :: rows) /\
     List.length rows = 1%nat /\
     t_step (@steps ToyWorld toy_flat [(3, 0)] toy_flat_start) = 0%Z).
Proof.
  split.
  - destruct (@past_obs_history ToyWorld toy_quiet (blank (toy_config 1 5))
                [0; 0; 0; 0] toy_start [(3, 0); (nan, 0)] toy_reset_returns)
      as (rows & H1 & H2 & H3 & _).
    exists rows. split; [exact H1|].
    split; [rewrite H2|rewrite H3]; vm_compute; reflexivity.
  - destruct (@past_obs_history ToyWorld toy_flat (blank (toy_config 1 5))
                [0; 0; 0; 0] toy_flat_start [(3, 0)] toy_flat_reset_returns)
      as (rows & H1 & H2 & H3 & _).
    exists rows. split; [exact H1|].
    split; [rewrite H2|rewrite H3]; vm_compute; reflexivity.
Defined.

(** X11 on the first step of the toy episode. *)
Lemma progress_not_nan_witness :
  is_nan (@progress ToyWorld (toy_config 1 5) 100 (mkToyVessel (3, 0) 0 3) 0) = false.
Proof.
  exact (@progress_not_nan ToyWorld (toy_config 1 5) 100 (mkToyVessel (3, 0) 0 3) 0
           0 (3, 0) 3 eq_refl (or_introl eq_refl)).
Defined.

(** X12 on the toy configuration, a fan of six sensors. *)
Lemma sensor_angles_increasing_witness :
  (nsensors (toy_config 1 5) <= 256)%nat /\
  StronglySorted (fun x y => (x <? y) = true) (sensor_angles (toy_config 1 5)).
Proof.
  assert (Hn : (nsensors (toy_config 1 5) <= 256)%nat) by (cbn; lia).
  split; [exact Hn|].
  exact (proj1 (sensor_angles_increasing (toy_config 1 5) Hn)).
Defined.

(** X14 on a reset of the toy episode. *)
Lemma episode_counter_witness :
  episode (snd (@reset ToyWorld toy_quiet toy_start)) =
  (episode toy_start
   + (if returned (fst (@reset ToyWorld toy_quiet toy_start)) then 1 else 0))%Z.
Proof.
  exact (proj1 (@episode_counter ToyWorld toy_quiet) toy_start None eq_refl).
Defined.


(** X16 on the object the constructor builds, where there is nothing to
    plot and the two counters agree, and on the second episode, where the
    memory holds the first one and the counters differ. *)
Lemma plot_inputs_iff_witness :
  (@plot_inputs ToyWorld toy_start = None
   <-> total_t_steps toy_start = t_step toy_start) /\
  @plot_inputs ToyWorld toy_start = None /\
  (@plot_inputs ToyWorld toy_second_episode = None
   <-> total_t_steps toy_second_episode = t_step toy_second_episode) /\
  @plot_inputs ToyWorld toy_second_episode = Some ([(0, 0); (100, 0)], [(3, 0)]) /\
  total_t_steps toy_second_episode = 1%Z /\ t_step toy_second_episode = 0%Z.
Proof.
  split.
  { exact (@plot_inputs_iff ToyWorld toy_quiet toy_start (reach_init (toy_config 1 5))). }
  split; [reflexivity|]. split.
  { exact (@plot_inputs_iff ToyWorld toy_quiet toy_second_episode
             toy_second_episode_reachable). }
  repeat split; vm_compute; reflexivity.
Defined.

End MoreRuns.
